(** * Recipe AI: the favourites list, the Gemini fetch service and the
    root controller of the recipe-discovery client, modelled and verified.

    The TypeScript sources are embedded function by function:
    - [Types]            : types.ts
    - [GeminiService]    : services/geminiService.ts, on the bodies whose
                           arrays hold recipes
    - [GeminiServiceAny] : services/geminiService.ts, on every value that a
                           body can parse to
    - [App]              : App.tsx (the root controller)
    - [SearchBar]        : components/SearchBar.tsx
    - [RecipeDetail]     : components/RecipeDetail.tsx
    - [RecipeCard]       : components/RecipeCard.tsx
    - [RecipeList]       : components/RecipeList.tsx

    React state is a record, a handler is a function on that record, and an
    [async] function is split at its [await] into the part that runs before
    the provider answers and the part that runs when it has answered.  The
    provider (the Gemini SDK) is outside of the sources: its answers are
    inputs of the model.  Numbers are binary64 floating-point numbers, and a
    text whose characters matter is the sequence of its UTF-16 code units. *)

From stdpp Require Import base list strings gmap sets pretty.
From Stdlib Require Import Ascii QArith_base Qround SpecFloat.
Close Scope Q_scope.

(** ** JavaScript values the sources rely on *)

Module Js.

(** A JavaScript [number]: a binary64 floating-point number, with its
    sign, mantissa and exponent. *)
Abbreviation number := spec_float.

(** The number an integer literal denotes. *)
Definition ofZ (n : Z) : number := binary_normalize 53 1024 n 0 false.

(** [x * y], [x / y], [x + y] and [x - y], each rounded to the nearest
    number, to the even one of two. *)
Definition times (x y : number) : number := SFmul 53 1024 x y.
Definition dividedBy (x y : number) : number := SFdiv 53 1024 x y.
Definition plus (x y : number) : number := SFadd 53 1024 x y.
Definition minus (x y : number) : number := SFsub 53 1024 x y.

(** [Math.max(x, y)]: NaN when one of the two is, and +0 above -0. *)
Definition mathMax (x y : number) : number :=
  match SFcompare x y with
  | Some Lt => y
  | Some Eq => match x with S754_zero true => y | _ => x end
  | Some Gt => x
  | None => S754_nan
  end.

(** What [x.toFixed(2)] writes: NaN, an infinity, the digits that
    [String(x)] writes when [x] is 10^21 or more, or else a sign and the
    decimal digits of a whole number [n] of hundredths, with a point before
    the last two. *)
Inductive Fixed2 : Type :=
| FixedNaN
| FixedInfinity (negative : bool)
| FixedLarge (x : number)
| FixedHundredths (negative : bool) (n : Z).

(** Whether [m * 2^e] is 10^21 or more. *)
Definition atLeast1e21 (m : positive) (e : Z) : bool :=
  match e with
  | Zneg k => (10 ^ 21 * 2 ^ Zpos k <=? Zpos m)%Z
  | _ => (10 ^ 21 <=? Zpos m * 2 ^ e)%Z
  end.

(** The whole number [n] for which [n / 100 - m * 2^e] is as close to zero
    as possible, the larger one when there are two. *)
Definition hundredths (m : positive) (e : Z) : Z :=
  match e with
  | Zneg k => ((200 * Zpos m + 2 ^ Zpos k) / 2 ^ (Zpos k + 1))%Z
  | _ => (100 * Zpos m * 2 ^ e)%Z
  end.

(** [Number.prototype.toFixed] with two fraction digits. *)
Definition toFixed2 (x : number) : Fixed2 :=
  match x with
  | S754_nan => FixedNaN
  | S754_infinity negative => FixedInfinity negative
  | S754_zero _ => FixedHundredths false 0
  | S754_finite negative m e =>
      if atLeast1e21 m e then FixedLarge x
      else FixedHundredths negative (hundredths m e)
  end.

(** [parseFloat] of what [toFixed] has written: the number nearest to the
    decimal that is written. *)
Definition parseFloat (written : Fixed2) : number :=
  match written with
  | FixedNaN => S754_nan
  | FixedInfinity negative => S754_infinity negative
  | FixedLarge x => x
  | FixedHundredths negative (Zpos n) =>
      SFdiv 53 1024 (S754_finite negative n 0) (S754_finite false 100 0)
  | FixedHundredths negative _ => S754_zero negative
  end.

(** The value of a finite number, as a fraction. *)
Definition valueOf (x : number) : option Q :=
  match x with
  | S754_zero _ => Some (Qmake 0 1)
  | S754_finite negative m (Zneg k) =>
      Some (Qmake (if negative then Zneg m else Zpos m) (2 ^ k))
  | S754_finite negative m e =>
      Some (Qmake ((if negative then Zneg m else Zpos m) * 2 ^ e) 1)
  | _ => None
  end.

(** A value that was thrown: an instance of [Error] with its [message],
    or anything else. *)
Inductive Thrown : Type :=
| ErrorObject (message : string)
| NotAnError (shown : string).

Definition instanceofError (e : Thrown) : bool :=
  match e with
  | ErrorObject _ => true
  | NotAnError _ => false
  end.

(** How a block of code completes: normally with a value, or abruptly. *)
Inductive Completion (A : Type) : Type :=
| Return (a : A)
| Throw (e : Thrown).
Arguments Return {A} a.
Arguments Throw {A} e.

Definition bind {A B} (c : Completion A) (k : A → Completion B) : Completion B :=
  match c with
  | Return a => k a
  | Throw e => Throw e
  end.

(** [try { body } catch (e) { handler e }] *)
Definition try_catch {A} (body : Completion A) (handler : Thrown → Completion A)
  : Completion A :=
  match body with
  | Return a => Return a
  | Throw e => handler e
  end.

(** Whether a block completed abruptly. *)
Definition threw {A} (c : Completion A) : bool :=
  match c with
  | Return _ => false
  | Throw _ => true
  end.

(** A string in a condition: the empty string is the only falsy one. *)
Definition truthyString (s : string) : bool := bool_decide (s ≠ "").

(** [Array.prototype.includes] on an array of strings. *)
Definition includes (l : list string) (x : string) : bool := bool_decide (x ∈ l).

(** A text whose characters the sources look at: its UTF-16 code units. *)
Abbreviation Text := (list N).

(** The code units that are WhiteSpace or LineTerminator, which
    [String.prototype.trim] strips: TAB, LF, VT, FF, CR, SPACE, NO-BREAK
    SPACE, U+1680, U+2000 to U+200A, U+2028, U+2029, U+202F, U+205F,
    U+3000 and U+FEFF. *)
Definition whiteSpace : list N :=
  [9; 10; 11; 12; 13; 32; 160; 5760;
   8192; 8193; 8194; 8195; 8196; 8197; 8198; 8199; 8200; 8201; 8202;
   8232; 8233; 8239; 8287; 12288; 65279]%N.

Definition isWhiteSpace (c : N) : bool := bool_decide (c ∈ whiteSpace).

Fixpoint dropWhiteSpace (l : Text) : Text :=
  match l with
  | [] => []
  | c :: rest => if isWhiteSpace c then dropWhiteSpace rest else l
  end.

(** [String.prototype.trim] *)
Definition trim (l : Text) : Text :=
  reverse (dropWhiteSpace (reverse (dropWhiteSpace l))).

(** A text in a condition: the empty text is the only falsy one. *)
Definition truthyText (l : Text) : bool := bool_decide (l ≠ []).

(** The texts that the sources only store, compare and concatenate are
    held as byte strings: the bytes of a text are those of UTF-8 for each
    of its code units, so that a text of ASCII characters is the string
    literal that spells it. *)
Definition bytesOfUnit (c : N) : list ascii :=
  if (c <? 128)%N then [ascii_of_N c]
  else if (c <? 2048)%N
  then [ascii_of_N (192 + c / 64); ascii_of_N (128 + c mod 64)]
  else [ascii_of_N (224 + (c / 4096) mod 16);
        ascii_of_N (128 + (c / 64) mod 64);
        ascii_of_N (128 + c mod 64)].

Definition stringOfText (l : Text) : string :=
  String.string_of_list_ascii (l ≫= bytesOfUnit).

(** The code units of a string literal of ASCII characters. *)
Definition textOfAscii (s : string) : Text :=
  N_of_ascii <$> String.list_ascii_of_string s.

(** The double quote character, for the template literals that contain one. *)
Definition dquote : string := String (ascii_of_nat 34) EmptyString.

End Js.

Notation "x ←? c ; k" := (Js.bind c (λ x, k))
  (at level 20, c at level 100, k at level 200, right associativity, only parsing).

(** ** types.ts *)

Module Types.
Import Js.

Inductive Language : Type := en | fr | ar.
Inductive CookMode : Type := standard | thermomix.

Global Instance Language_eq_dec : EqDecision Language.
Proof. solve_decision. Defined.

(** The string a [Language] is at run time. *)
Definition languageTag (l : Language) : string :=
  match l with en => "en" | fr => "fr" | ar => "ar" end.

Record Ingredient : Type := {
  name : string;
  quantity : number;
  unit' : string
}.

Record Nutrition : Type := {
  calories : string;
  protein : string;
  carbs : string;
  fat : string
}.

Record Recipe : Type := {
  recipeName : string;
  description : string;
  servings : number;
  cookingTime : string;
  nutrition : Nutrition;
  rating : number;
  ingredients : list Ingredient;
  standardInstructions : list string;
  thermomixInstructions : list string;
  imageUrl : string
}.

(** [{ ...recipe, imageUrl: url }] for a [Recipe]. *)
Definition setImageUrl (recipe : Recipe) (url : string) : Recipe :=
  {| recipeName := recipeName recipe;
     description := description recipe;
     servings := servings recipe;
     cookingTime := cookingTime recipe;
     nutrition := nutrition recipe;
     rating := rating recipe;
     ingredients := ingredients recipe;
     standardInstructions := standardInstructions recipe;
     thermomixInstructions := thermomixInstructions recipe;
     imageUrl := url |}.

End Types.

(** [Omit<Recipe, 'imageUrl'>]: a recipe as the text step delivers it. *)
Module RecipeText.
Import Js Types.

Record t : Type := {
  recipeName : string;
  description : string;
  servings : number;
  cookingTime : string;
  nutrition : Nutrition;
  rating : number;
  ingredients : list Ingredient;
  standardInstructions : list string;
  thermomixInstructions : list string
}.

(** A [Recipe] passed where [Omit<Recipe, 'imageUrl'>] is expected. *)
Definition ofRecipe (recipe : Recipe) : t :=
  {| recipeName := Types.recipeName recipe;
     description := Types.description recipe;
     servings := Types.servings recipe;
     cookingTime := Types.cookingTime recipe;
     nutrition := Types.nutrition recipe;
     rating := Types.rating recipe;
     ingredients := Types.ingredients recipe;
     standardInstructions := Types.standardInstructions recipe;
     thermomixInstructions := Types.thermomixInstructions recipe |}.

(** [{ ...recipe, imageUrl: url }] for a recipe without image. *)
Definition withImage (recipe : t) (url : string) : Recipe :=
  {| Types.recipeName := recipeName recipe;
     Types.description := description recipe;
     Types.servings := servings recipe;
     Types.cookingTime := cookingTime recipe;
     Types.nutrition := nutrition recipe;
     Types.rating := rating recipe;
     Types.ingredients := ingredients recipe;
     Types.standardInstructions := standardInstructions recipe;
     Types.thermomixInstructions := thermomixInstructions recipe;
     Types.imageUrl := url |}.

End RecipeText.

(** ** services/geminiService.ts *)

Module GeminiService.
Import Js Types.

(** *** What the provider sends back *)

Record InlineData : Type := { mimeType : string; data : string }.

(** A part of an image response; [inlineData] may be missing. *)
Record Part : Type := { inlineData : option InlineData }.

(** The outcome of one image request, as far as the [try] block of
    [generateImageForRecipeWithRetry] can tell: either the awaited call or
    the access to [response.candidates[0].content.parts] throws, or the
    parts are there to be searched. *)
Inductive ImageReply : Type :=
| ImageThrows (e : Thrown)
| ImageParts (parts : list Part).

(** The parsed response body, when it follows the schema so far that its
    arrays are arrays of recipes, which is what line 139 declares the
    elements of [parsedData.recipes] to be.  Nothing checks that when the
    program runs: [GeminiServiceAny] below follows the service on every
    value that [JSON.parse] can return, and [fetchRecipes_typed_view]
    shows that the two agree on the bodies that are represented here. *)
#[warnings="-register-all"]
Inductive Json : Type :=
| JNull
| JBool (b : bool)
| JNumber (n : number)
| JString (s : string)
| JArray (items : list RecipeText.t)
| JObject (fields : gmap string Json).

(** The outcome of the text request, by how far lines 120 to 132 get:
    the awaited call throws; [textResponse.text] is undefined and [.trim()]
    throws a TypeError; [JSON.parse] throws a SyntaxError with some
    message; or the body parses. *)
Inductive TextReply : Type :=
| TextThrows (e : Thrown)
| TextUndefined
| TextNotJson (syntaxError : string)
| TextJson (parsedData : Json).

Record TextRequest : Type := {
  contents : string;
  systemInstruction : string
}.

(** The provider: its answer to a text request, and its answer to the
    [attempt]-th image request made for the recipe at position [index] of
    a batch. *)
Record Provider : Type := {
  generateText : TextRequest → TextReply;
  generateImage : ∀ (index attempt : nat), ImageReply
}.

(** *** generateImageForRecipeWithRetry *)

Definition imagePrompt (recipe : RecipeText.t) : string :=
  "A delicious and realistic photo of " +:+ dquote +:+
  RecipeText.recipeName recipe +:+ dquote +:+
  ". Style: professional food photography, appetizing, high-quality, like photos seen on Pixabay, Unsplash, or Wikimedia Commons. Description for context: " +:+
  RecipeText.description recipe.

(** The inner [for ... of] loop over the parts, and the [throw] after it. *)
Fixpoint dataUrlOfParts (parts : list Part) : Completion string :=
  match parts with
  | [] => Throw (ErrorObject "Image data not found in Gemini response.")
  | part :: rest =>
      match inlineData part with
      | Some d => Return ("data:" +:+ mimeType d +:+ ";base64," +:+ data d)
      | None => dataUrlOfParts rest
      end
  end.

(** The body of the [try] block for one reply. *)
Definition attemptImage (reply : ImageReply) : Completion string :=
  match reply with
  | ImageThrows e => Throw e
  | ImageParts parts => dataUrlOfParts parts
  end.

Definition failedAfter (recipe : RecipeText.t) (retries : nat) : Thrown :=
  ErrorObject ("Failed to generate image for " +:+ RecipeText.recipeName recipe +:+
               " after " +:+ pretty retries +:+ " attempts.").

(** The loop [for (let i = 0; i < retries; i++)], entered at [i] with
    [remaining = retries - i] iterations to go.  The result comes with the
    prompts of the requests that were sent, oldest first. *)
Fixpoint retryLoop (recipe : RecipeText.t) (retries : nat)
    (replies : nat → ImageReply) (i remaining : nat)
  : Completion string * list string :=
  match remaining with
  | 0 => (Throw (failedAfter recipe retries), [])
  | S remaining' =>
      match attemptImage (replies i) with
      | Return url => (Return url, [imagePrompt recipe])
      | Throw error =>
          if bool_decide (i = retries - 1)
          then (Throw error, [imagePrompt recipe])
          else
            let '(result, sent) :=
              retryLoop recipe retries replies (S i) remaining' in
            (result, imagePrompt recipe :: sent)
      end
  end.

Definition generateImageForRecipeWithRetry (recipe : RecipeText.t)
    (retries : nat) (replies : nat → ImageReply)
  : Completion string * list string :=
  retryLoop recipe retries replies 0 retries.

(** The default [retries = 3]. *)
Definition defaultRetries : nat := 3.

(** *** regenerateRecipeImage *)

Definition regenerateRecipeImage (recipe : RecipeText.t)
    (replies : nat → ImageReply) : Completion string * list string :=
  let '(result, sent) := generateImageForRecipeWithRetry recipe 1 replies in
  (try_catch result (λ error,
     if instanceofError error then Throw error
     else Throw (ErrorObject "An unknown error occurred while regenerating the image.")),
   sent).

(** *** fetchRecipes *)

Definition systemInstructionFor (language : Language) : string :=
  "You are an expert recipe assistant. Generate recipes in " +:+
  languageTag language +:+
  ". Ensure the output strictly follows the provided JSON schema. Do not include markdown formatting like ```json in your response.".

(** [textResponse.text.trim()] followed by [JSON.parse]. *)
Definition parseText (reply : TextReply) : Completion Json :=
  match reply with
  | TextThrows e => Throw e
  | TextUndefined =>
      Throw (ErrorObject "Cannot read properties of undefined (reading 'trim')")
  | TextNotJson syntaxError => Throw (ErrorObject syntaxError)
  | TextJson parsedData => Return parsedData
  end.

(** [!!parsedData] *)
Definition truthy (v : Json) : bool :=
  match v with
  | JNull => false
  | JBool b => b
  | JNumber (S754_zero _) | JNumber S754_nan => false
  | JNumber _ => true
  | JString s => truthyString s
  | JArray _ | JObject _ => true
  end.

(** [v.recipes] for a value that is neither null nor undefined: only an
    object has own properties read from the response. *)
Definition recipesOf (v : Json) : option Json :=
  match v with
  | JObject fields => fields !! "recipes"
  | _ => None
  end.

(** [Array.isArray] of a possibly undefined value. *)
Definition isArray (v : option Json) : bool :=
  match v with
  | Some (JArray _) => true
  | _ => false
  end.

Definition itemsOf (v : option Json) : list RecipeText.t :=
  match v with
  | Some (JArray items) => items
  | _ => []
  end.

Definition parseFormatError : Thrown :=
  ErrorObject "Failed to parse recipes from API response.".

(** Step 2: one promise per recipe, each with its own [.catch]. *)
Definition imagePromise (provider : Provider) (index : nat)
    (recipe : RecipeText.t) : string :=
  match fst (generateImageForRecipeWithRetry recipe defaultRetries
               (generateImage provider index)) with
  | Return url => url
  | Throw _ => ""
  end.

(** The body of the outer [try]. *)
Definition fetchRecipesBody (prompt : string) (language : Language)
    (provider : Provider) : Completion (list Recipe) :=
  let request :=
    {| contents := prompt; systemInstruction := systemInstructionFor language |} in
  parsedData ←? parseText (generateText provider request);
  if negb (truthy parsedData) || negb (isArray (recipesOf parsedData))
  then Throw parseFormatError
  else
    let recipesData := itemsOf (recipesOf parsedData) in
    if bool_decide (length recipesData = 0)
    then Return []
    else
      let imageUrls := imap (imagePromise provider) recipesData in
      Return (imap (λ index recipe,
                      RecipeText.withImage recipe (imageUrls !!! index))
                   recipesData).

Definition fetchRecipes (prompt : string) (language : Language)
    (provider : Provider) : Completion (list Recipe) :=
  try_catch (fetchRecipesBody prompt language provider) (λ error,
    if instanceofError error then Throw error
    else Throw (ErrorObject "An unknown error occurred while fetching recipes.")).

End GeminiService.

(** ** services/geminiService.ts, on any parsed value

    [JSON.parse] returns a value of type [any], and the type that line 139
    declares for the elements of [parsedData.recipes] is not checked when
    the program runs.  This module follows [fetchRecipes] on whatever the
    body parses to; [GeminiService] above is its view of the bodies whose
    arrays hold recipes. *)

Module GeminiServiceAny.
Import Js Types.

(** What [JSON.parse] can return. *)
#[warnings="-register-all"]
Inductive Value : Type :=
| VNull
| VBool (b : bool)
| VNumber (n : number)
| VString (s : string)
| VArray (items : list Value)
| VObject (fields : gmap string Value).

Inductive TextReply : Type :=
| TextThrows (e : Thrown)
| TextUndefined
| TextNotJson (syntaxError : string)
| TextJson (parsedData : Value).

Record Provider : Type := {
  generateText : GeminiService.TextRequest → TextReply;
  generateImage : ∀ (index attempt : nat), GeminiService.ImageReply
}.

(** [{ ...recipe, imageUrl: url }], held as what it is built from. *)
Record WithImage : Type := { spread : Value; imageUrl : string }.

(** [recipe.key], for a key that no prototype defines, as [recipeName] and
    [description] are: reading it from null throws a TypeError, and a
    value that has no such property gives undefined. *)
Definition get (recipe : Value) (key : string) : Completion (option Value) :=
  match recipe with
  | VNull =>
      Throw (ErrorObject ("Cannot read properties of null (reading '" +:+ key +:+ "')"))
  | VObject fields => Return (fields !! key)
  | _ => Return None
  end.

Section WithNumberToString.

(** [Number::toString], the digits that a number is written with. *)
Variable numberToString : number → string.

(** [Array.prototype.join] with a comma, on the strings of the elements. *)
Fixpoint join (elements : list (Completion string)) : Completion string :=
  match elements with
  | [] => Return ""
  | element :: rest =>
      first ←? element;
      match rest with
      | [] => Return first
      | _ => others ←? join rest; Return (first +:+ "," +:+ others)
      end
  end.

(** The string a value is converted to.  An array joins the strings of
    its elements, null giving the empty one; an object that was parsed has
    no function of its own, so that it is written by
    [Object.prototype.toString] unless a property named [toString] hides
    that, in which case the conversion throws a TypeError. *)
Fixpoint toString (v : Value) : Completion string :=
  match v with
  | VNull => Return "null"
  | VBool b => Return (if b then "true" else "false")
  | VNumber n => Return (numberToString n)
  | VString s => Return s
  | VArray items =>
      join ((λ item, match item with
                     | VNull => Return ""
                     | _ => toString item
                     end) <$> items)
  | VObject fields =>
      match fields !! "toString" with
      | Some _ => Throw (ErrorObject "Cannot convert object to primitive value")
      | None => Return "[object Object]"
      end
  end.

(** [`${recipe.key}`] *)
Definition interpolated (recipe : Value) (key : string) : Completion string :=
  property ←? get recipe key;
  match property with
  | None => Return "undefined"
  | Some v => toString v
  end.

(** *** generateImageForRecipeWithRetry *)

Definition imagePrompt (recipe : Value) : Completion string :=
  recipeName ←? interpolated recipe "recipeName";
  description ←? interpolated recipe "description";
  Return ("A delicious and realistic photo of " +:+ dquote +:+
          recipeName +:+ dquote +:+
          ". Style: professional food photography, appetizing, high-quality, like photos seen on Pixabay, Unsplash, or Wikimedia Commons. Description for context: " +:+
          description).

(** The loop, once the prompt is made: [recipeName] is what
    [`${recipe.recipeName}`] gives, as it did for the prompt. *)
Fixpoint retryLoop (imagePrompt recipeName : string) (retries : nat)
    (replies : nat → GeminiService.ImageReply) (i remaining : nat)
  : Completion string * list string :=
  match remaining with
  | 0 =>
      (Throw (ErrorObject ("Failed to generate image for " +:+ recipeName +:+
                           " after " +:+ pretty retries +:+ " attempts.")), [])
  | S remaining' =>
      match GeminiService.attemptImage (replies i) with
      | Return url => (Return url, [imagePrompt])
      | Throw error =>
          if bool_decide (i = retries - 1)
          then (Throw error, [imagePrompt])
          else
            let '(result, sent) :=
              retryLoop imagePrompt recipeName retries replies (S i) remaining' in
            (result, imagePrompt :: sent)
      end
  end.

Definition generateImageForRecipeWithRetry (recipe : Value) (retries : nat)
    (replies : nat → GeminiService.ImageReply)
  : Completion string * list string :=
  match imagePrompt recipe, interpolated recipe "recipeName" with
  | Return prompt, Return recipeName =>
      retryLoop prompt recipeName retries replies 0 retries
  | Throw e, _ | _, Throw e => (Throw e, [])
  end.

(** *** fetchRecipes *)

Definition parseText (reply : TextReply) : Completion Value :=
  match reply with
  | TextThrows e => Throw e
  | TextUndefined =>
      Throw (ErrorObject "Cannot read properties of undefined (reading 'trim')")
  | TextNotJson syntaxError => Throw (ErrorObject syntaxError)
  | TextJson parsedData => Return parsedData
  end.

(** [!!parsedData] *)
Definition truthy (v : Value) : bool :=
  match v with
  | VNull => false
  | VBool b => b
  | VNumber (S754_zero _) | VNumber S754_nan => false
  | VNumber _ => true
  | VString s => truthyString s
  | VArray _ | VObject _ => true
  end.

(** [v.recipes] for a value that is neither null nor undefined. *)
Definition recipesOf (v : Value) : option Value :=
  match v with
  | VObject fields => fields !! "recipes"
  | _ => None
  end.

(** [Array.isArray] of a possibly undefined value. *)
Definition isArray (v : option Value) : bool :=
  match v with
  | Some (VArray _) => true
  | _ => false
  end.

Definition itemsOf (v : option Value) : list Value :=
  match v with
  | Some (VArray items) => items
  | _ => []
  end.

(** Step 2: one promise per element, each with its own [.catch], whose
    handler reads [recipe.recipeName] for its message before it returns
    the empty string. *)
Definition imagePromise (provider : Provider) (index : nat) (recipe : Value)
  : Completion string :=
  try_catch
    (generateImageForRecipeWithRetry recipe GeminiService.defaultRetries
       (generateImage provider index)).1
    (λ _, _ ←? interpolated recipe "recipeName"; Return "").

(** [await Promise.all(promises)]: the values of the promises, or what the
    first of them to be rejected was rejected with.  The promises that are
    rejected here are so before any request is answered, in their order. *)
Fixpoint all {A} (promises : list (Completion A)) : Completion (list A) :=
  match promises with
  | [] => Return []
  | promise :: rest =>
      match promise, all rest with
      | Throw e, _ => Throw e
      | Return _, Throw e => Throw e
      | Return a, Return values => Return (a :: values)
      end
  end.

(** The body of the outer [try]. *)
Definition fetchRecipesBody (prompt : string) (language : Language)
    (provider : Provider) : Completion (list WithImage) :=
  let request :=
    {| GeminiService.contents := prompt;
       GeminiService.systemInstruction :=
         GeminiService.systemInstructionFor language |} in
  parsedData ←? parseText (generateText provider request);
  if negb (truthy parsedData) || negb (isArray (recipesOf parsedData))
  then Throw GeminiService.parseFormatError
  else
    let recipesData := itemsOf (recipesOf parsedData) in
    if bool_decide (length recipesData = 0)
    then Return []
    else
      imageUrls ←? all (imap (imagePromise provider) recipesData);
      Return (imap (λ index recipe,
                      {| spread := recipe; imageUrl := imageUrls !!! index |})
                   recipesData).

Definition fetchRecipes (prompt : string) (language : Language)
    (provider : Provider) : Completion (list WithImage) :=
  try_catch (fetchRecipesBody prompt language provider) (λ error,
    if instanceofError error then Throw error
    else Throw (ErrorObject "An unknown error occurred while fetching recipes.")).

End WithNumberToString.

(** *** The bodies whose arrays hold recipes *)

Definition ofIngredient (ingredient : Ingredient) : Value :=
  VObject (<["name" := VString (name ingredient)]>
           (<["quantity" := VNumber (quantity ingredient)]>
            (<["unit" := VString (unit' ingredient)]> ∅))).

Definition ofNutrition (n : Nutrition) : Value :=
  VObject (<["calories" := VString (calories n)]>
           (<["protein" := VString (protein n)]>
            (<["carbs" := VString (carbs n)]>
             (<["fat" := VString (fat n)]> ∅)))).

(** The object that a recipe of the schema is when it has been parsed. *)
Definition ofRecipeText (recipe : RecipeText.t) : Value :=
  VObject
    (<["recipeName" := VString (RecipeText.recipeName recipe)]>
     (<["description" := VString (RecipeText.description recipe)]>
      (<["servings" := VNumber (RecipeText.servings recipe)]>
       (<["cookingTime" := VString (RecipeText.cookingTime recipe)]>
        (<["nutrition" := ofNutrition (RecipeText.nutrition recipe)]>
         (<["rating" := VNumber (RecipeText.rating recipe)]>
          (<["ingredients" :=
               VArray (ofIngredient <$> RecipeText.ingredients recipe)]>
           (<["standardInstructions" :=
                VArray (VString <$> RecipeText.standardInstructions recipe)]>
            (<["thermomixInstructions" :=
                 VArray (VString <$> RecipeText.thermomixInstructions recipe)]>
             ∅))))))))).

(** A recipe that the service returns, as the object it is. *)
Definition ofRecipe (recipe : Recipe) : WithImage :=
  {| spread := ofRecipeText (RecipeText.ofRecipe recipe);
     imageUrl := Types.imageUrl recipe |}.

Fixpoint ofJson (v : GeminiService.Json) : Value :=
  match v with
  | GeminiService.JNull => VNull
  | GeminiService.JBool b => VBool b
  | GeminiService.JNumber n => VNumber n
  | GeminiService.JString s => VString s
  | GeminiService.JArray items => VArray (ofRecipeText <$> items)
  | GeminiService.JObject fields => VObject (ofJson <$> fields)
  end.

Definition ofTextReply (reply : GeminiService.TextReply) : TextReply :=
  match reply with
  | GeminiService.TextThrows e => TextThrows e
  | GeminiService.TextUndefined => TextUndefined
  | GeminiService.TextNotJson syntaxError => TextNotJson syntaxError
  | GeminiService.TextJson parsedData => TextJson (ofJson parsedData)
  end.

Definition ofProvider (provider : GeminiService.Provider) : Provider :=
  {| generateText := λ request,
       ofTextReply (GeminiService.generateText provider request);
     generateImage := GeminiService.generateImage provider |}.

End GeminiServiceAny.

(** ** App.tsx: the root controller *)

Module App.
Import Js Types.

(** The entries of [TRANSLATIONS[language]] that the controller reads to
    build a prompt. *)
Record Translation : Type := {
  searchPrompt : string → string;
  initialPrompt : string
}.

(** ['all' | 'favorites'] *)
Inductive Filter : Type := Filter_all | Filter_favorites.

(** The updater that [toggleFavorite] hands to [setFavorites]. *)
Definition toggleFavoriteUpdater (recipeName : string) (prev : list string)
  : list string :=
  if includes prev recipeName
  then filter (λ name, name ≠ recipeName) prev
  else prev ++ [recipeName].

(** The updater that [handleUpdateRecipe] hands to [setRecipes]. *)
Definition updateRecipeUpdater (updatedRecipe : Recipe) (prevRecipes : list Recipe)
  : list Recipe :=
  (λ r, if bool_decide (recipeName r = recipeName updatedRecipe)
        then updatedRecipe else r) <$> prevRecipes.

(** [recipes.filter(recipe => favorites.includes(recipe.recipeName))] *)
Definition favoriteRecipes (favorites : list string) (recipes : list Recipe)
  : list Recipe :=
  filter (λ recipe, includes favorites (recipeName recipe) = true) recipes.

(** The [useState] cells of the component. *)
Record State : Type := {
  language : Language;
  recipes : list Recipe;
  selectedRecipe : option Recipe;
  isLoading : bool;
  error : option string;
  favorites : list string;
  filter : Filter
}.

(** Whether the search bar is rendered: it is in the branch of the view
    for no selected recipe, with the filter buttons and the list. *)
Definition searchBarShown (st : State) : bool :=
  match selectedRecipe st with
  | Some _ => false
  | None => true
  end.

Definition setLanguage (l : Language) (st : State) : State :=
  {| language := l; recipes := recipes st; selectedRecipe := selectedRecipe st;
     isLoading := isLoading st; error := error st;
     favorites := favorites st; filter := filter st |}.

Definition setRecipes (update : list Recipe → list Recipe) (st : State) : State :=
  {| language := language st; recipes := update (recipes st);
     selectedRecipe := selectedRecipe st;
     isLoading := isLoading st; error := error st;
     favorites := favorites st; filter := filter st |}.

Definition setSelectedRecipe (r : option Recipe) (st : State) : State :=
  {| language := language st; recipes := recipes st; selectedRecipe := r;
     isLoading := isLoading st; error := error st;
     favorites := favorites st; filter := filter st |}.

Definition setIsLoading (b : bool) (st : State) : State :=
  {| language := language st; recipes := recipes st;
     selectedRecipe := selectedRecipe st;
     isLoading := b; error := error st;
     favorites := favorites st; filter := filter st |}.

Definition setError (e : option string) (st : State) : State :=
  {| language := language st; recipes := recipes st;
     selectedRecipe := selectedRecipe st;
     isLoading := isLoading st; error := e;
     favorites := favorites st; filter := filter st |}.

Definition setFavorites (update : list string → list string) (st : State) : State :=
  {| language := language st; recipes := recipes st;
     selectedRecipe := selectedRecipe st;
     isLoading := isLoading st; error := error st;
     favorites := update (favorites st); filter := filter st |}.

Definition setFilter (f : Filter) (st : State) : State :=
  {| language := language st; recipes := recipes st;
     selectedRecipe := selectedRecipe st;
     isLoading := isLoading st; error := error st;
     favorites := favorites st; filter := f |}.

Definition toggleFavorite (recipeName : string) (st : State) : State :=
  setFavorites (toggleFavoriteUpdater recipeName) st.

Definition handleUpdateRecipe (updatedRecipe : Recipe) (st : State) : State :=
  setRecipes (updateRecipeUpdater updatedRecipe)
    (setSelectedRecipe (Some updatedRecipe) st).

Definition filteredRecipes (st : State) : list Recipe :=
  match filter st with
  | Filter_favorites => favoriteRecipes (favorites st) (recipes st)
  | Filter_all => recipes st
  end.

(** What the controller shows below the header. *)
Inductive View : Type :=
| DetailView (recipe : Recipe)
| SpinnerView
| ErrorView (message : string)
| ListView (shown : list Recipe).

Definition render (st : State) : View :=
  match selectedRecipe st with
  | Some recipe => DetailView recipe
  | None =>
      if isLoading st then SpinnerView
      else
        match error st with
        | Some message =>
            if truthyString message then ErrorView message
            else ListView (filteredRecipes st)
        | None => ListView (filteredRecipes st)
        end
  end.

Section WithTranslations.

(** constants.ts is not among the sources at hand. *)
Variable TRANSLATIONS : Language → Translation.

(** The arguments of the call to the service's [fetchRecipes]. *)
Record FetchCall : Type := { prompt : string; inLanguage : Language }.

Definition promptFor (language : Language) (searchTerm : string) : string :=
  if truthyString searchTerm
  then searchPrompt (TRANSLATIONS language) searchTerm
  else initialPrompt (TRANSLATIONS language).

(** [fetchRecipes] up to its [await]: the state updates it queues, and
    the call it awaits. *)
Definition fetchRecipesBegin (searchTerm : string) (st : State)
  : State * FetchCall :=
  let st1 := setError None (setIsLoading true st) in
  let st2 :=
    if negb (truthyString searchTerm) then setSelectedRecipe None st1 else st1 in
  (st2, {| prompt := promptFor (language st) searchTerm;
           inLanguage := language st |}).

(** [fetchRecipes] from the moment the awaited call has settled: the
    rest of [try], or [catch], and then [finally]. *)
Definition fetchRecipesSettle (outcome : Completion (list Recipe)) (st : State)
  : State :=
  let st1 :=
    match outcome with
    | Return fetchedRecipes => setRecipes (λ _, fetchedRecipes) st
    | Throw err =>
        let errorMessage :=
          match err with
          | ErrorObject message => message
          | NotAnError _ => "An unknown error occurred"
          end in
        setRecipes (λ _, []) (setError (Some errorMessage) st)
    end in
  setIsLoading false st1.

(** A whole run of [fetchRecipes] with nothing else happening meanwhile. *)
Definition fetchRecipes (searchTerm : string)
    (provider : GeminiService.Provider) (st : State) : State :=
  let '(st1, call) := fetchRecipesBegin searchTerm st in
  fetchRecipesSettle
    (GeminiService.fetchRecipes (prompt call) (inLanguage call) provider) st1.

Definition handleSearch (searchTerm : string) (st : State)
  : State * FetchCall :=
  fetchRecipesBegin searchTerm (setFilter Filter_all st).

Definition handleLogoClick (st : State) : State * FetchCall :=
  fetchRecipesBegin "" (setSelectedRecipe None (setFilter Filter_all st)).

(** The language selector, and the effect on [language] that follows. *)
Definition changeLanguage (l : Language) (st : State) : State * FetchCall :=
  fetchRecipesBegin "" (setLanguage l st).

End WithTranslations.

End App.

(** ** components/SearchBar.tsx *)

Module SearchBar.
Import Js.

(** [handleSubmit] with [term] in the input: the argument of the call to
    [onSearch], if it is called. *)
Definition handleSubmit (term : Text) : option Text :=
  if truthyText (trim term) then Some (trim term) else None.

(** The controller's reaction to a submission, [onSearch] being
    [App.handleSearch]. *)
Definition submit (TRANSLATIONS : Types.Language → App.Translation)
    (term : Text) (st : App.State) : App.State * option App.FetchCall :=
  match handleSubmit term with
  | Some searchTerm =>
      let '(st', call) :=
        App.handleSearch TRANSLATIONS (stringOfText searchTerm) st in
      (st', Some call)
  | None => (st, None)
  end.

End SearchBar.

(** ** components/RecipeDetail.tsx *)

Module RecipeDetail.
Import Js Types.

(** The [useState] cells of the detail view. *)
Record Local : Type := {
  portions : number;
  cookMode : CookMode;
  showCopied : bool;
  imageError : bool;
  isRegenerating : bool
}.

Definition initialLocal (recipe : Recipe) : Local :=
  {| portions := servings recipe; cookMode := standard; showCopied := false;
     imageError := false; isRegenerating := false |}.

Definition setImageError (b : bool) (l : Local) : Local :=
  {| portions := portions l; cookMode := cookMode l; showCopied := showCopied l;
     imageError := b; isRegenerating := isRegenerating l |}.

Definition setIsRegenerating (b : bool) (l : Local) : Local :=
  {| portions := portions l; cookMode := cookMode l; showCopied := showCopied l;
     imageError := imageError l; isRegenerating := b |}.

(** [handleRegenerateImage] for the view of [recipe], [onUpdateRecipe]
    being [App.handleUpdateRecipe]: the view's and the controller's state
    once the helper has settled, and the prompts of the image requests
    that were sent. *)
Definition handleRegenerateImage (recipe : Recipe)
    (replies : nat → GeminiService.ImageReply)
    (l : Local) (st : App.State) : Local * App.State * list string :=
  let l1 := setIsRegenerating true l in
  let '(outcome, sent) :=
    GeminiService.regenerateRecipeImage (RecipeText.ofRecipe recipe) replies in
  match outcome with
  | Return newImageUrl =>
      (setIsRegenerating false l1,
       App.handleUpdateRecipe (setImageUrl recipe newImageUrl) st,
       sent)
  | Throw _ =>
      (setIsRegenerating false (setImageError true l1), st, sent)
  end.

(** [PLACEHOLDER_IMAGE] *)
Definition PLACEHOLDER_IMAGE : string :=
  "https://images.unsplash.com/photo-1546069901-ba9599a7e63c?q=80&w=2080&auto=format&fit=crop".

(** [!recipe.imageUrl || imageError] *)
Definition showRegenerateButton (recipe : Recipe) (l : Local) : bool :=
  negb (truthyString (imageUrl recipe)) || imageError l.

(** The [src] of the image of the view. *)
Definition imageSrc (recipe : Recipe) (l : Local) : string :=
  if showRegenerateButton recipe l then PLACEHOLDER_IMAGE else imageUrl recipe.

(** [onError] of the image. *)
Definition handleImageError (l : Local) : Local := setImageError true l.

(** The effect on [recipe.imageUrl], when the view that was rendered for
    [previous] is rendered for [current]: it runs when the dependency has
    changed. *)
Definition imageUrlEffect (previous current : Recipe) (l : Local) : Local :=
  if bool_decide (imageUrl previous = imageUrl current) then l
  else setImageError false l.

Definition setPortions (p : number) (l : Local) : Local :=
  {| portions := p; cookMode := cookMode l; showCopied := showCopied l;
     imageError := imageError l; isRegenerating := isRegenerating l |}.

(** The minus button, [setPortions(p => Math.max(1, p - 1))], and the plus
    button, [setPortions(p => p + 1)]. *)
Definition decrementPortions (l : Local) : Local :=
  setPortions (mathMax (ofZ 1) (minus (portions l) (ofZ 1))) l.
Definition incrementPortions (l : Local) : Local :=
  setPortions (plus (portions l) (ofZ 1)) l.

(** [portions / recipe.servings] *)
Definition portionMultiplier (recipe : Recipe) (l : Local) : number :=
  dividedBy (portions l) (servings recipe).

(** [recipe.ingredients.map(ing => ({ ...ing, quantity:
    parseFloat((ing.quantity * portionMultiplier).toFixed(2)) }))] *)
Definition adjustedIngredients (recipe : Recipe) (l : Local) : list Ingredient :=
  (λ ing,
     {| name := name ing;
        quantity :=
          parseFloat (toFixed2 (times (quantity ing) (portionMultiplier recipe l)));
        unit' := unit' ing |}) <$> ingredients recipe.

(** The adjusted quantity in exact arithmetic, for comparison: the source
    quantity times the portions over the servings, as a fraction. *)
Definition exactQuantity (quantity portions servings : number) : option Q :=
  match valueOf quantity, valueOf portions, valueOf servings with
  | Some q, Some p, Some s => Some (Qmult q (Qdiv p s))
  | _, _, _ => None
  end.

(** A fraction rounded to two decimal places, as a whole number of
    hundredths: the nearest one, the larger of two. *)
Definition roundedToHundredths (x : Q) : Z :=
  Qfloor (Qplus (Qmult x (Qmake 100 1)) (Qmake 1 2)).

Definition setCookMode (mode : CookMode) (l : Local) : Local :=
  {| portions := portions l; cookMode := mode; showCopied := showCopied l;
     imageError := imageError l; isRegenerating := isRegenerating l |}.

(** The list under the heading of the instructions. *)
Definition shownInstructions (recipe : Recipe) (l : Local) : list string :=
  match cookMode l with
  | standard => standardInstructions recipe
  | thermomix => thermomixInstructions recipe
  end.

(** [handleFavoriteClick], [onToggleFavorite] being [App.toggleFavorite]. *)
Definition handleFavoriteClick (recipe : Recipe) (st : App.State) : App.State :=
  App.toggleFavorite (recipeName recipe) st.

(** [onBack], as the controller passes it. *)
Definition onBack (st : App.State) : App.State := App.setSelectedRecipe None st.

End RecipeDetail.

(** ** components/RecipeCard.tsx *)

Module RecipeCard.
Import Js Types.

Definition PLACEHOLDER_IMAGE : string :=
  "https://images.unsplash.com/photo-1546069901-ba9599a7e63c?q=80&w=2080&auto=format&fit=crop".

(** [recipe.imageUrl || PLACEHOLDER_IMAGE], the [src] the card is rendered
    with. *)
Definition imageSrc (recipe : Recipe) : string :=
  if truthyString (imageUrl recipe) then imageUrl recipe else PLACEHOLDER_IMAGE.

(** [handleImageError]: the [src] of the image element after the handler. *)
Definition handleImageError (src : string) : string := PLACEHOLDER_IMAGE.

(** [handleFavoriteClick]: the click does not reach the card, only
    [onToggleFavorite] runs, which is [App.toggleFavorite]. *)
Definition handleFavoriteClick (recipe : Recipe) (st : App.State) : App.State :=
  App.toggleFavorite (recipeName recipe) st.

(** A click on the card: [onClick], which is [onSelectRecipe(recipe)], the
    controller's [setSelectedRecipe]. *)
Definition onClick (recipe : Recipe) (st : App.State) : App.State :=
  App.setSelectedRecipe (Some recipe) st.

End RecipeCard.

(** ** components/RecipeList.tsx *)

Module RecipeList.
Import Js Types.

(** The entries of [TRANSLATIONS[language]] that the list reads. *)
Record Messages : Type := {
  noFavorites : string;
  noRecipes : string
}.

(** The props a [RecipeCard] of the grid is given, and its key. *)
Record Card : Type := {
  key : string;
  recipe : Recipe;
  isFavorite : bool
}.

Inductive Rendering : Type :=
| Message (text : string)
| Grid (cards : list Card).

Definition render (TRANSLATIONS : Language → Messages) (recipes : list Recipe)
    (language : Language) (favorites : list string) (filter : App.Filter)
  : Rendering :=
  if bool_decide (length recipes = 0)
  then
    Message (match filter with
             | App.Filter_favorites => noFavorites (TRANSLATIONS language)
             | App.Filter_all => noRecipes (TRANSLATIONS language)
             end)
  else
    Grid (imap (λ index recipe,
                  {| key := recipeName recipe +:+ "-" +:+ pretty index;
                     recipe := recipe;
                     isFavorite := includes favorites (recipeName recipe) |})
               recipes).

(** The list as the controller renders it. *)
Definition ofState (TRANSLATIONS : Language → Messages) (st : App.State)
  : Rendering :=
  render TRANSLATIONS (App.filteredRecipes st) (App.language st)
    (App.favorites st) (App.filter st).

End RecipeList.

(** ** Sample data, for evaluating the model on concrete inputs *)

Module Sample.
Import Js Types.

Definition recipeText (name description : string) : RecipeText.t :=
  {| RecipeText.recipeName := name;
     RecipeText.description := description;
     RecipeText.servings := ofZ 4;
     RecipeText.cookingTime := "45 minutes";
     RecipeText.nutrition :=
       {| calories := "450 kcal"; protein := "25 g"; carbs := "50 g"; fat := "15 g" |};
     RecipeText.rating := ofZ 5;
     RecipeText.ingredients :=
       [ {| name := "tomato"; quantity := dividedBy (ofZ 3) (ofZ 2); unit' := "kg" |} ];
     RecipeText.standardInstructions := ["Chop."; "Simmer."];
     RecipeText.thermomixInstructions := ["Blend 20 s, speed 5."] |}.

Definition tomatoSoup : Recipe :=
  RecipeText.withImage (recipeText "Tomato Soup" "A warming soup.") "data:image/png;base64,AAAA".
Definition beefStew : Recipe :=
  RecipeText.withImage (recipeText "Beef Stew" "A hearty stew.") "".
(** A second recipe that the provider happened to give the name of the first. *)
Definition tomatoSoupCold : Recipe :=
  RecipeText.withImage (recipeText "Tomato Soup" "Served cold.") "data:image/png;base64,BBBB".

(** A translation table to run the controller with. *)
Definition translations (l : Language) : App.Translation :=
  {| App.searchPrompt := λ term, "Recipes for: " +:+ term;
     App.initialPrompt := "Popular recipes" |}.

(** The list view of a loaded result, and the detail view of its first
    recipe. *)
Definition loaded : App.State :=
  {| App.language := en; App.recipes := [tomatoSoup; beefStew];
     App.selectedRecipe := None; App.isLoading := false; App.error := None;
     App.favorites := ["Tomato Soup"]; App.filter := App.Filter_favorites |}.
Definition detail : App.State := App.setSelectedRecipe (Some tomatoSoup) loaded.

(** A result in which two recipes bear the same name, the first selected. *)
Definition sameNames : App.State :=
  {| App.language := en; App.recipes := [tomatoSoup; tomatoSoupCold];
     App.selectedRecipe := Some tomatoSoup; App.isLoading := false;
     App.error := None; App.favorites := []; App.filter := App.Filter_all |}.

Definition png (bytes : string) : GeminiService.ImageReply :=
  GeminiService.ImageParts
    [ {| GeminiService.inlineData := None |};
      {| GeminiService.inlineData :=
           Some {| GeminiService.mimeType := "image/png";
                   GeminiService.data := bytes |} |} ].

Definition overloaded : GeminiService.ImageReply :=
  GeminiService.ImageThrows (ErrorObject "503 The model is overloaded.").

Definition body (items : list RecipeText.t) : GeminiService.Json :=
  GeminiService.JObject {[ "recipes" := GeminiService.JArray items ]}.

(** Two recipes; every image request for the first one fails, the second
    request for the second one succeeds. *)
Definition provider : GeminiService.Provider :=
  {| GeminiService.generateText := λ _,
       GeminiService.TextJson
         (body [recipeText "Tomato Soup" "A warming soup.";
                recipeText "Beef Stew" "A hearty stew."]);
     GeminiService.generateImage := λ index attempt,
       match index, attempt with
       | 1, 1 => png "CCCC"
       | 1, 0 => GeminiService.ImageParts []
       | _, _ => overloaded
       end |}.

Definition providerAnswering (reply : GeminiService.TextReply)
  : GeminiService.Provider :=
  {| GeminiService.generateText := λ _, reply;
     GeminiService.generateImage := λ _ _, overloaded |}.

(** A recipe for ten whose quantity, a quarter, is a number exactly; and
    one for one whose quantity is the number nearest to 0.045. *)
Definition cream (servings quantity : number) : Recipe :=
  {| recipeName := "Whipped Cream"; description := "Cream, whipped.";
     servings := servings; cookingTime := "5 minutes";
     nutrition :=
       {| calories := "50 kcal"; protein := "0 g"; carbs := "1 g"; fat := "5 g" |};
     rating := ofZ 4;
     ingredients := [ {| name := "cream"; quantity := quantity; unit' := "l" |} ];
     standardInstructions := ["Whip."]; thermomixInstructions := ["Whip, speed 3."];
     imageUrl := "" |}.
Definition creamForTen : Recipe := cream (ofZ 10) (dividedBy (ofZ 1) (ofZ 4)).
Definition creamForOne : Recipe := cream (ofZ 1) (dividedBy (ofZ 45) (ofZ 1000)).

(** [Number::toString] on the whole numbers below 10^21, which are written
    with all their digits; the samples hold no other number. *)
Definition numberToString (n : number) : string :=
  match valueOf n with
  | Some q => pretty (Qnum q / Zpos (Qden q))%Z
  | None => "NaN"
  end.

(** A provider whose body parses to [parsedData], and whose image requests
    all fail. *)
Definition anyProviderAnswering (parsedData : GeminiServiceAny.Value)
  : GeminiServiceAny.Provider :=
  {| GeminiServiceAny.generateText := λ _, GeminiServiceAny.TextJson parsedData;
     GeminiServiceAny.generateImage := λ _ _, overloaded |}.

(** The body [{"recipes": items}]. *)
Definition anyBody (items : list GeminiServiceAny.Value) : GeminiServiceAny.Value :=
  GeminiServiceAny.VObject {[ "recipes" := GeminiServiceAny.VArray items ]}.

(** The messages of an empty list. *)
Definition messages (l : Language) : RecipeList.Messages :=
  {| RecipeList.noFavorites := "No favorites yet.";
     RecipeList.noRecipes := "No recipes found." |}.

End Sample.

(** * Properties *)

(** ** The favourites list *)

Section Favorites.
Import Js.
Implicit Types (F prev : list string) (n recipeName : string).

Lemma toggle_present F n :
  n ∈ F → App.toggleFavoriteUpdater n F = filter (λ name, name ≠ n) F.
Proof.
  intros Hin. unfold App.toggleFavoriteUpdater, includes.
  by rewrite bool_decide_eq_true_2.
Qed.

Lemma toggle_absent F n :
  n ∉ F → App.toggleFavoriteUpdater n F = F ++ [n].
Proof.
  intros Hnotin. unfold App.toggleFavoriteUpdater, includes.
  by rewrite bool_decide_eq_false_2.
Qed.

Lemma filter_other_absent F n :
  n ∉ F → filter (λ name, name ≠ n) F = F.
Proof.
  induction F as [|x F IH]; [done|].
  intros Hnotin. apply not_elem_of_cons in Hnotin as [Hne Hnotin].
  rewrite filter_cons_True by congruence. by rewrite IH.
Qed.

Lemma removed_absent F n : n ∉ filter (λ name, name ≠ n) F.
Proof. rewrite list_elem_of_filter. tauto. Qed.

(** Adding a name and toggling it again gives the very same sequence. *)
Lemma toggle_twice_absent F n :
  n ∉ F → App.toggleFavoriteUpdater n (App.toggleFavoriteUpdater n F) = F.
Proof.
  intros Hnotin. rewrite (toggle_absent F n Hnotin).
  rewrite toggle_present by set_solver.
  rewrite filter_app, (filter_other_absent F n Hnotin).
  rewrite filter_cons_False by tauto.
  by rewrite filter_nil, app_nil_r.
Qed.

(** Removing a name and toggling it again moves it to the end. *)
Lemma toggle_twice_present F n :
  n ∈ F →
  App.toggleFavoriteUpdater n (App.toggleFavoriteUpdater n F)
  = filter (λ name, name ≠ n) F ++ [n].
Proof.
  intros Hin. rewrite (toggle_present F n Hin).
  apply toggle_absent, removed_absent.
Qed.

(** On a duplicate-free list the names are then the same, each once. *)
Lemma toggle_twice_Permutation F n :
  NoDup F →
  App.toggleFavoriteUpdater n (App.toggleFavoriteUpdater n F) ≡ₚ F.
Proof.
  intros Hnd. destruct (decide (n ∈ F)) as [Hin|Hnotin].
  - rewrite (toggle_twice_present F n Hin).
    induction Hnd as [|x F Hx Hnd IH]; [by apply elem_of_nil in Hin|].
    destruct (decide (x = n)) as [->|Hne].
    + rewrite filter_cons_False by tauto.
      rewrite (filter_other_absent F n Hx). by rewrite Permutation_app_comm.
    + rewrite filter_cons_True by done. cbn. f_equiv. apply IH.
      apply elem_of_cons in Hin as [->|Hin]; done.
  - by rewrite (toggle_twice_absent F n Hnotin).
Qed.

(** The order of the persisted sequence is not always restored. *)
Example toggle_twice_order :
  App.toggleFavoriteUpdater "Tomato Soup"
    (App.toggleFavoriteUpdater "Tomato Soup" ["Tomato Soup"; "Beef Stew"])
  = ["Beef Stew"; "Tomato Soup"].
Proof. reflexivity. Qed.

(** C2. Toggling a favourite twice on the same recipe name restores the
    original favourites set: for every favourites list of the controller
    and every recipe name, the names in the list after two calls of
    [toggleFavorite] are those before, and nothing else of the
    controller's state has changed. *)
Theorem toggleFavorite_twice_same_set (st : App.State) (n : string) :
  let st' := App.toggleFavorite n (App.toggleFavorite n st) in
  list_to_set (App.favorites st') =@{gset string} list_to_set (App.favorites st)
  ∧ App.setFavorites (λ _, App.favorites st) st' = st.
Proof.
  destruct st as [lang rs sel loading err F flt]. cbn. split; [|done].
  destruct (decide (n ∈ F)) as [Hin|Hnotin].
  - rewrite (toggle_twice_present F n Hin).
    apply set_eq. intros x.
    rewrite !elem_of_list_to_set, elem_of_app, list_elem_of_filter,
      list_elem_of_singleton.
    destruct (decide (x = n)) as [->|Hne]; tauto.
  - by rewrite (toggle_twice_absent F n Hnotin).
Qed.

Lemma NoDup_toggle F n : NoDup F → NoDup (App.toggleFavoriteUpdater n F).
Proof.
  intros Hnd. destruct (decide (n ∈ F)) as [Hin|Hnotin].
  - rewrite (toggle_present F n Hin). by apply NoDup_filter.
  - rewrite (toggle_absent F n Hnotin).
    apply NoDup_app. split_and!; [done| |apply NoDup_singleton].
    intros x Hx ->%list_elem_of_singleton. done.
Qed.

(** C9. For every duplicate-free favourites list and every recipe name,
    [toggleFavorite] produces a duplicate-free list: when the name is
    present every occurrence of it is filtered out, when it is absent it
    is appended once. *)
Theorem toggleFavorite_NoDup (st : App.State) (n : string) :
  NoDup (App.favorites st) →
  let F' := App.favorites (App.toggleFavorite n st) in
  NoDup F'
  ∧ (if Js.includes (App.favorites st) n
     then (n ∉ F') ∧ F' = filter (λ name, name ≠ n) (App.favorites st)
     else F' = App.favorites st ++ [n]).
Proof.
  intros Hnd. destruct st as [lang rs sel loading err F flt]. cbn in *.
  split; [by apply NoDup_toggle|].
  unfold includes. case_bool_decide as Hin.
  - rewrite (toggle_present F n Hin). split; [apply removed_absent|done].
  - by apply toggle_absent.
Qed.

Lemma toggleFavorite_NoDup_witness :
  NoDup (App.favorites Sample.loaded)
  ∧ NoDup (App.favorites (App.toggleFavorite "Beef Stew" Sample.loaded)).
Proof.
  assert (Hnd : NoDup (App.favorites Sample.loaded)).
  { cbn. apply NoDup_singleton. }
  split; [exact Hnd|].
  exact (proj1 (toggleFavorite_NoDup Sample.loaded "Beef Stew" Hnd)).
Defined.

(** With "Tomato Soup" the only favourite, the favourites filter shows one
    of the two recipes of the list. *)
Example filteredRecipes_favorites :
  App.filteredRecipes Sample.loaded = [Sample.tomatoSoup].
Proof. reflexivity. Qed.

(** Hence no sequence of toggles ever makes a name occur twice. *)
Lemma toggles_NoDup (names : list string) F :
  NoDup F → NoDup (foldl (λ prev n, App.toggleFavoriteUpdater n prev) F names).
Proof.
  revert F. induction names as [|n names IH]; intros F Hnd; [done|].
  cbn. by apply IH, NoDup_toggle.
Qed.

End Favorites.

(** ** The retry loop of the image requests *)

Section Retry.
Import Js GeminiService.
Variables (recipe : RecipeText.t) (retries : nat) (replies : nat → ImageReply).

Lemma retryLoop_sent_length remaining i :
  length (retryLoop recipe retries replies i remaining).2 ≤ remaining.
Proof.
  revert i. induction remaining as [|remaining IH]; intros i; cbn; [lia|].
  destruct (attemptImage (replies i)) as [url|error]; cbn; [lia|].
  case_bool_decide; cbn; [lia|].
  specialize (IH (S i)).
  destruct (retryLoop recipe retries replies (S i) remaining) as [result sent].
  cbn in *. lia.
Qed.

Lemma retryLoop_sent_first remaining i :
  0 < remaining → 1 ≤ length (retryLoop recipe retries replies i remaining).2.
Proof.
  destruct remaining as [|remaining]; [lia|]. intros _. cbn.
  destruct (attemptImage (replies i)) as [url|error]; cbn; [lia|].
  case_bool_decide; cbn; [lia|].
  destruct (retryLoop recipe retries replies (S i) remaining) as [result sent].
  cbn. lia.
Qed.

(** Every request carries the prompt made from the recipe. *)
Lemma retryLoop_sent_prompt remaining i :
  Forall (λ p, p = imagePrompt recipe)
    (retryLoop recipe retries replies i remaining).2.
Proof.
  revert i. induction remaining as [|remaining IH]; intros i; cbn; [constructor|].
  destruct (attemptImage (replies i)) as [url|error]; cbn; [by repeat constructor|].
  case_bool_decide; cbn; [by repeat constructor|].
  specialize (IH (S i)).
  destruct (retryLoop recipe retries replies (S i) remaining) as [result sent].
  by constructor.
Qed.

(** When every remaining attempt fails the loop ends abruptly. *)
Lemma retryLoop_all_fail remaining i :
  (∀ k, i ≤ k < i + remaining → threw (attemptImage (replies k)) = true) →
  threw (retryLoop recipe retries replies i remaining).1 = true.
Proof.
  revert i. induction remaining as [|remaining IH]; intros i Hfail; cbn; [done|].
  pose proof (Hfail i ltac:(lia)) as Hi.
  destruct (attemptImage (replies i)) as [url|error]; [done|].
  case_bool_decide; [done|].
  specialize (IH (S i) ltac:(intros k Hk; apply Hfail; lia)).
  by destruct (retryLoop recipe retries replies (S i) remaining) as [result sent].
Qed.

(** ... after one request for each of the remaining iterations. *)
Lemma retryLoop_all_fail_sent remaining i :
  i + remaining = retries →
  (∀ k, i ≤ k < i + remaining → threw (attemptImage (replies k)) = true) →
  length (retryLoop recipe retries replies i remaining).2 = remaining.
Proof.
  revert i. induction remaining as [|remaining IH]; intros i Hsum Hfail; cbn; [done|].
  pose proof (Hfail i ltac:(lia)) as Hi.
  destruct (attemptImage (replies i)) as [url|error]; [done|].
  case_bool_decide as Hlast; cbn; [lia|].
  specialize (IH (S i) ltac:(lia) ltac:(intros k Hk; apply Hfail; lia)).
  destruct (retryLoop recipe retries replies (S i) remaining) as [result sent].
  cbn in *. by rewrite IH.
Qed.

(** When the attempts before the [k]-th fail and the [k]-th succeeds, the
    loop returns its image after [k + 1] requests. *)
Lemma retryLoop_first_success k url : ∀ remaining i,
  i + remaining = retries → k < remaining →
  (∀ j, i ≤ j < i + k → threw (attemptImage (replies j)) = true) →
  attemptImage (replies (i + k)) = Return url →
  retryLoop recipe retries replies i remaining
  = (Return url, replicate (S k) (imagePrompt recipe)).
Proof.
  induction k as [|k IH]; intros [|remaining] i Hsum Hlt Hfail Hok; try lia; cbn.
  - rewrite Nat.add_0_r in Hok. by rewrite Hok.
  - pose proof (Hfail i ltac:(lia)) as Hi.
    destruct (attemptImage (replies i)) as [url'|error]; [done|].
    rewrite bool_decide_eq_false_2 by lia.
    rewrite (IH remaining (S i)); [done|lia|lia| |].
    + intros j Hj. apply Hfail. lia.
    + by replace (S i + k) with (i + S k) by lia.
Qed.

End Retry.

Section Service.
Import Js Types GeminiService.

Lemma generateImage_requests recipe retries replies :
  0 < retries →
  1 ≤ length (generateImageForRecipeWithRetry recipe retries replies).2 ≤ retries.
Proof.
  intros Hpos. split.
  - by apply retryLoop_sent_first.
  - apply retryLoop_sent_length.
Qed.

Lemma imagePromise_all_fail provider index recipe :
  (∀ k, k < 3 → threw (attemptImage (generateImage provider index k)) = true) →
  imagePromise provider index recipe = ""
  ∧ length (generateImageForRecipeWithRetry recipe 3 (generateImage provider index)).2
    = 3.
Proof.
  intros Hfail. split.
  - unfold imagePromise, generateImageForRecipeWithRetry.
    pose proof (retryLoop_all_fail recipe defaultRetries
                  (generateImage provider index) defaultRetries 0) as Hthrew.
    destruct (retryLoop _ _ _ _ _).1 as [url|error]; [|done].
    discriminate Hthrew. intros k Hk. apply Hfail. unfold defaultRetries in Hk. lia.
  - apply retryLoop_all_fail_sent; [done|]. intros k Hk. apply Hfail. lia.
Qed.

Lemma imagePromise_first_success provider index recipe k url :
  k < 3 →
  (∀ j, j < k → threw (attemptImage (generateImage provider index j)) = true) →
  attemptImage (generateImage provider index k) = Return url →
  imagePromise provider index recipe = url
  ∧ length (generateImageForRecipeWithRetry recipe 3 (generateImage provider index)).2
    = S k.
Proof.
  intros Hk Hfail Hok. unfold imagePromise, generateImageForRecipeWithRetry.
  unfold defaultRetries.
  rewrite (retryLoop_first_success recipe 3 (generateImage provider index) k url 3 0);
    [|lia|lia| |done].
  - cbn [fst snd]. by rewrite length_replicate.
  - intros j Hj. apply Hfail. lia.
Qed.

(** What the service returns once the body has the expected shape. *)
Lemma fetchRecipes_joined prompt language provider fields items :
  generateText provider
    {| contents := prompt; systemInstruction := systemInstructionFor language |}
  = TextJson (JObject fields) →
  fields !! "recipes" = Some (JArray items) →
  fetchRecipes prompt language provider
  = Return (imap (λ index recipe,
                    RecipeText.withImage recipe (imagePromise provider index recipe))
                 items).
Proof.
  intros Htext Hrecipes. unfold fetchRecipes, fetchRecipesBody.
  rewrite Htext. cbn. rewrite Hrecipes. cbn.
  case_bool_decide as Hempty.
  - destruct items; [done|discriminate].
  - cbn. f_equal. apply imap_ext. intros index recipe Hlookup. cbn.
    f_equal. apply list_lookup_total_correct.
    by rewrite list_lookup_imap, Hlookup.
Qed.

(** A reply with which an attempt fails: the request throws, or no part
    of the response has inline data. *)
Lemma attemptImage_fails reply :
  match reply with
  | ImageThrows _ => True
  | ImageParts parts => Forall (λ part, inlineData part = None) parts
  end →
  threw (attemptImage reply) = true.
Proof.
  destruct reply as [e|parts]; [done|]. cbn.
  induction 1 as [|part parts Hpart _ IH]; cbn; [done|]. by rewrite Hpart.
Qed.

Lemma dataUrlOfParts_missing parts :
  Forall (λ part, inlineData part = None) parts →
  dataUrlOfParts parts = Throw (ErrorObject "Image data not found in Gemini response.").
Proof. induction 1 as [|part parts Hpart _ IH]; cbn; [done|]. by rewrite Hpart. Qed.

Lemma dataUrlOfParts_skips skipped part rest d :
  Forall (λ p, inlineData p = None) skipped →
  inlineData part = Some d →
  dataUrlOfParts (skipped ++ part :: rest)
  = Return ("data:" +:+ mimeType d +:+ ";base64," +:+ data d).
Proof.
  intros Hskipped Hpart.
  induction Hskipped as [|p skipped Hp _ IH]; cbn; [by rewrite Hpart|].
  by rewrite Hp.
Qed.

(** C3. In the batch fetch each recipe's image is requested at most three
    times, each time with the prompt made from its name and description.
    An attempt fails when the request throws or no part of the response
    has inline data.  The i-th recipe that is returned has the nine fields
    of the i-th recipe of the response; its image reference is the empty
    string when its three attempts all fail, and the data URL of the first
    part with inline data of its first attempt that does not fail,
    whatever happens to the requests of the other recipes. *)
Theorem fetchRecipes_images prompt language provider fields items :
  generateText provider
    {| contents := prompt; systemInstruction := systemInstructionFor language |}
  = TextJson (JObject fields) →
  fields !! "recipes" = Some (JArray items) →
  ∃ fetched,
    fetchRecipes prompt language provider = Return fetched
    ∧ length fetched = length items
    ∧ ∀ index recipe, items !! index = Some recipe →
        let requests :=
          (generateImageForRecipeWithRetry recipe 3 (generateImage provider index)).2 in
        let failed k :=
          match generateImage provider index k with
          | ImageThrows _ => True
          | ImageParts parts => Forall (λ part, inlineData part = None) parts
          end in
        1 ≤ length requests ≤ 3
        ∧ Forall (λ sent,
                    sent
                    = "A delicious and realistic photo of " +:+ dquote +:+
                      RecipeText.recipeName recipe +:+ dquote +:+
                      ". Style: professional food photography, appetizing, high-quality, like photos seen on Pixabay, Unsplash, or Wikimedia Commons. Description for context: " +:+
                      RecipeText.description recipe)
            requests
        ∧ ∃ r,
            fetched !! index = Some r
            ∧ recipeName r = RecipeText.recipeName recipe
            ∧ description r = RecipeText.description recipe
            ∧ servings r = RecipeText.servings recipe
            ∧ cookingTime r = RecipeText.cookingTime recipe
            ∧ nutrition r = RecipeText.nutrition recipe
            ∧ rating r = RecipeText.rating recipe
            ∧ ingredients r = RecipeText.ingredients recipe
            ∧ standardInstructions r = RecipeText.standardInstructions recipe
            ∧ thermomixInstructions r = RecipeText.thermomixInstructions recipe
            ∧ ((∀ k, k < 3 → failed k) →
               imageUrl r = "" ∧ length requests = 3)
            ∧ (∀ k skipped part rest d, k < 3 →
                 (∀ j, j < k → failed j) →
                 generateImage provider index k
                 = ImageParts (skipped ++ part :: rest) →
                 Forall (λ p, inlineData p = None) skipped →
                 inlineData part = Some d →
                 imageUrl r = "data:" +:+ mimeType d +:+ ";base64," +:+ data d
                 ∧ length requests = S k).
Proof.
  intros Htext Hrecipes. eexists. split; [by eapply fetchRecipes_joined|].
  split; [by rewrite length_imap|].
  intros index recipe Hlookup requests failed. split.
  { apply generateImage_requests. lia. }
  split; [apply retryLoop_sent_prompt|].
  exists (RecipeText.withImage recipe (imagePromise provider index recipe)).
  split; [by rewrite list_lookup_imap, Hlookup|].
  do 9 (split; [done|]). split.
  - intros Hfail. apply imagePromise_all_fail.
    intros k Hk. apply attemptImage_fails, Hfail, Hk.
  - intros k skipped part rest d Hk Hfail Hreply Hskipped Hpart.
    apply (imagePromise_first_success provider index recipe k); [done| |].
    + intros j Hj. apply attemptImage_fails, Hfail, Hj.
    + rewrite Hreply. cbn. by apply dataUrlOfParts_skips.
Qed.

Lemma fetchRecipes_images_witness :
  ∃ fetched,
    fetchRecipes "Popular recipes" en Sample.provider = Return fetched
    ∧ imageUrl <$> fetched !! 0 = Some ""
    ∧ imageUrl <$> fetched !! 1 = Some "data:image/png;base64,CCCC".
Proof.
  destruct (fetchRecipes_images "Popular recipes" en Sample.provider
              {[ "recipes" := JArray [Sample.recipeText "Tomato Soup" "A warming soup.";
                                      Sample.recipeText "Beef Stew" "A hearty stew."] ]}
              [Sample.recipeText "Tomato Soup" "A warming soup.";
               Sample.recipeText "Beef Stew" "A hearty stew."]
              eq_refl eq_refl)
    as (fetched & Hreturn & _ & Hjoin).
  exists fetched. split; [exact Hreturn|]. split.
  - destruct (Hjoin 0 _ eq_refl)
      as (_ & _ & r & -> & _ & _ & _ & _ & _ & _ & _ & _ & _ & Hfail & _).
    destruct Hfail as [Hurl _]; [|exact (f_equal Some Hurl)].
    intros [|[|[|k]]] Hk; [exact I..|lia].
  - destruct (Hjoin 1 _ eq_refl)
      as (_ & _ & r & -> & _ & _ & _ & _ & _ & _ & _ & _ & _ & _ & Hsuccess).
    destruct (Hsuccess 1 [ {| inlineData := None |} ]
                {| inlineData := Some {| mimeType := "image/png"; data := "CCCC" |} |}
                [] {| mimeType := "image/png"; data := "CCCC" |})
      as [Hurl _]; [lia| |reflexivity|by repeat constructor|reflexivity|].
    + intros [|j] Hj; [constructor|lia].
    + exact (f_equal Some Hurl).
Defined.

(** On the bodies whose arrays hold recipes: an empty array gives the
    empty sequence, and a value that is not an object with an array under
    [recipes] gives the parse-format error. *)
Lemma fetchRecipes_shape_typed prompt language provider parsedData :
  generateText provider
    {| contents := prompt; systemInstruction := systemInstructionFor language |}
  = TextJson parsedData →
  ((∃ fields, parsedData = JObject fields
              ∧ fields !! "recipes" = Some (JArray [])) →
   fetchRecipes prompt language provider = Return [])
  ∧ ((¬ ∃ fields items, parsedData = JObject fields
                        ∧ fields !! "recipes" = Some (JArray items)) →
     fetchRecipes prompt language provider
     = Throw (ErrorObject "Failed to parse recipes from API response.")).
Proof.
  intros Htext. split.
  - intros (fields & -> & Hrecipes).
    by rewrite (fetchRecipes_joined _ _ _ _ _ Htext Hrecipes).
  - intros Hshape. unfold fetchRecipes, fetchRecipesBody.
    rewrite Htext. cbn.
    destruct parsedData as [|b|n|s|items|fields]; cbn; try done.
    + by destruct b.
    + by destruct (negb _).
    + by destruct (truthyString s).
    + destruct (fields !! "recipes") as [[| | | |items|]|] eqn:Hrecipes;
        cbn; try done.
      destruct Hshape. eauto.
Qed.

(** An empty result is shown as the empty list, not as an error. *)
Lemma empty_result_listed TRANSLATIONS searchTerm provider st fields :
  App.selectedRecipe st = None →
  generateText provider
    {| contents := App.promptFor TRANSLATIONS (App.language st) searchTerm;
       systemInstruction := systemInstructionFor (App.language st) |}
  = TextJson (JObject fields) →
  fields !! "recipes" = Some (JArray []) →
  App.render (App.fetchRecipes TRANSLATIONS searchTerm provider st) = App.ListView [].
Proof.
  intros Hsel Htext Hrecipes. unfold App.fetchRecipes. cbn.
  rewrite (fetchRecipes_joined _ _ _ _ _ Htext Hrecipes). cbn.
  unfold App.render. destruct st as [lang rs sel loading err F flt].
  cbn in *. subst sel.
  destruct (truthyString searchTerm); cbn; unfold App.filteredRecipes; cbn;
    by destruct flt.
Qed.

(** C7. The regeneration helper sends exactly one image request, with
    the prompt made from the name and the description of the given recipe,
    and what it does depends on the reply to that request alone.  It
    returns the data URL of the first part of the reply that has inline
    data; it throws the error for a missing image when no part has any,
    the [Error] that the request threw, or the error for an unknown
    failure when the request threw something else.  When it throws, the
    detail view leaves the controller's state, and so the recipe, as it
    was. *)
Theorem regenerateRecipeImage_once (recipe : Recipe) replies l st :
  let outcome := (regenerateRecipeImage (RecipeText.ofRecipe recipe) replies).1 in
  (regenerateRecipeImage (RecipeText.ofRecipe recipe) replies).2
  = ["A delicious and realistic photo of " +:+ dquote +:+
     recipeName recipe +:+ dquote +:+
     ". Style: professional food photography, appetizing, high-quality, like photos seen on Pixabay, Unsplash, or Wikimedia Commons. Description for context: " +:+
     description recipe]
  ∧ match replies 0 with
    | ImageThrows (ErrorObject message) => outcome = Throw (ErrorObject message)
    | ImageThrows (NotAnError _) =>
        outcome
        = Throw (ErrorObject "An unknown error occurred while regenerating the image.")
    | ImageParts parts =>
        (Forall (λ part, inlineData part = None) parts →
         outcome = Throw (ErrorObject "Image data not found in Gemini response."))
        ∧ (∀ skipped part rest d,
             parts = skipped ++ part :: rest →
             Forall (λ p, inlineData p = None) skipped →
             inlineData part = Some d →
             outcome = Return ("data:" +:+ mimeType d +:+ ";base64," +:+ data d))
    end
  ∧ (∀ replies', replies' 0 = replies 0 →
       regenerateRecipeImage (RecipeText.ofRecipe recipe) replies'
       = regenerateRecipeImage (RecipeText.ofRecipe recipe) replies)
  ∧ match outcome with
    | Return url =>
        (RecipeDetail.handleRegenerateImage recipe replies l st).1.2
        = App.handleUpdateRecipe (setImageUrl recipe url) st
    | Throw _ =>
        (RecipeDetail.handleRegenerateImage recipe replies l st).1.2 = st
    end.
Proof.
  assert (∀ replies1,
            regenerateRecipeImage (RecipeText.ofRecipe recipe) replies1
            = (match attemptImage (replies1 0) with
               | Return url => Return url
               | Throw error =>
                   Throw (if instanceofError error then error
                          else ErrorObject "An unknown error occurred while regenerating the image.")
               end,
               [imagePrompt (RecipeText.ofRecipe recipe)])) as Hrun.
  { intros replies1.
    unfold regenerateRecipeImage, generateImageForRecipeWithRetry. cbn.
    destruct (attemptImage (replies1 0)) as [url|error]; cbn; [done|].
    rewrite bool_decide_eq_true_2 by done. cbn.
    by destruct (instanceofError error). }
  cbv zeta. unfold RecipeDetail.handleRegenerateImage. rewrite Hrun.
  cbn [fst snd]. split; [done|]. split; [|split].
  - destruct (replies 0) as [[message|shown]|parts]; cbn; [done..|]. split.
    + intros Hnone. by rewrite dataUrlOfParts_missing.
    + intros skipped part rest d -> Hskipped Hpart.
      by rewrite (dataUrlOfParts_skips skipped part rest d).
  - intros replies' Hsame. by rewrite !Hrun, Hsame.
  - by destruct (attemptImage (replies 0)) as [url|error].
Qed.

End Service.

(** ** The adjusted quantities *)

Section Portions.
Import Js Types RecipeDetail.

(** The hundredths that [toFixed] writes are the nearest to the number. *)
Lemma hundredths_nearest (m k : positive) :
  (0 ≤ hundredths m (Zneg k)
   ∧ 2 ^ Zpos k * (2 * hundredths m (Zneg k) - 1) ≤ 200 * Zpos m
   ∧ 200 * Zpos m < 2 ^ Zpos k * (2 * hundredths m (Zneg k) + 1))%Z.
Proof.
  unfold hundredths.
  assert (0 < 2 ^ Zpos k)%Z as Hpos by (apply Z.pow_pos_nonneg; lia).
  replace (2 ^ (Zpos k + 1))%Z with (2 * 2 ^ Zpos k)%Z
    by (rewrite Z.pow_add_r by lia; lia).
  set (d := (2 ^ Zpos k)%Z) in *.
  pose proof (Z.div_mod (200 * Zpos m + d) (2 * d) ltac:(lia)) as Hdiv.
  pose proof (Z.mod_pos_bound (200 * Zpos m + d) (2 * d) ltac:(lia)) as Hmod.
  split; [apply Z.div_pos; lia|]. nia.
Qed.

(** C8. The list that is shown has the ingredients of the recipe, in
    order, with their names and units; the quantity of each is computed
    from the product, in floating-point arithmetic, of the source quantity
    and the quotient of the portions by the servings.  A product that is
    not a number or is infinite is shown as it is, a zero as +0, and a
    finite product of 10^21 or more as it is; any other finite product
    [m * 2^e] is shown as the number nearest to [n / 100], with its sign,
    where [n] is the whole number of hundredths nearest to [m * 2^e], the
    larger of two. *)
Theorem adjustedIngredients_hundredths (recipe : Recipe) (l : Local) :
  length (adjustedIngredients recipe l) = length (ingredients recipe)
  ∧ ∀ i ing, ingredients recipe !! i = Some ing →
      ∃ shown,
        adjustedIngredients recipe l !! i = Some shown
        ∧ name shown = name ing
        ∧ unit' shown = unit' ing
        ∧ match times (quantity ing) (dividedBy (portions l) (servings recipe)) with
          | S754_nan => quantity shown = S754_nan
          | S754_infinity negative => quantity shown = S754_infinity negative
          | S754_zero _ => quantity shown = S754_zero false
          | S754_finite negative m (Zneg k) =>
              ((10 ^ 21 * 2 ^ Zpos k ≤ Zpos m)%Z →
               quantity shown = S754_finite negative m (Zneg k))
              ∧ ((Zpos m < 10 ^ 21 * 2 ^ Zpos k)%Z →
                 ∃ n, (0 ≤ n)%Z
                      ∧ (2 ^ Zpos k * (2 * n - 1) ≤ 200 * Zpos m)%Z
                      ∧ (200 * Zpos m < 2 ^ Zpos k * (2 * n + 1))%Z
                      ∧ quantity shown
                        = SFdiv 53 1024
                            match n with
                            | Zpos n' => S754_finite negative n' 0
                            | _ => S754_zero negative
                            end
                            (S754_finite false 100 0))
          | S754_finite negative m e =>
              ((10 ^ 21 ≤ Zpos m * 2 ^ e)%Z →
               quantity shown = S754_finite negative m e)
              ∧ ((Zpos m * 2 ^ e < 10 ^ 21)%Z →
                 quantity shown
                 = SFdiv 53 1024
                     (S754_finite negative (Z.to_pos (100 * Zpos m * 2 ^ e)) 0)
                     (S754_finite false 100 0))
          end.
Proof.
  split; [apply length_fmap|].
  intros i ing Hlookup. unfold adjustedIngredients, portionMultiplier.
  rewrite list_lookup_fmap, Hlookup. cbn [fmap option_fmap option_map].
  eexists. split; [done|]. cbn [name unit' quantity]. split; [done|].
  split; [done|].
  destruct (times (quantity ing) (dividedBy (portions l) (servings recipe)))
    as [s|negative| |negative m e]; try done.
  unfold toFixed2, atLeast1e21.
  assert (∀ k : positive, 0 < 2 ^ Zpos k)%Z as Hpow.
  { intros k. apply Z.pow_pos_nonneg; lia. }
  destruct e as [|e|k].
  - destruct (Z.leb_spec (10 ^ 21) (Zpos m * 2 ^ 0)) as [Hlarge|Hsmall];
      (split; [intros ?; first [done|lia]|intros ?; try lia]).
    unfold parseFloat, hundredths.
    replace (100 * Zpos m * 2 ^ 0)%Z with (Zpos (100 * m)) by lia. done.
  - destruct (Z.leb_spec (10 ^ 21) (Zpos m * 2 ^ Zpos e)) as [Hlarge|Hsmall];
      (split; [intros ?; first [done|lia]|intros ?; try lia]).
    unfold parseFloat, hundredths. specialize (Hpow e).
    destruct (100 * Zpos m * 2 ^ Zpos e)%Z eqn:Hn; [nia|done|nia].
  - destruct (Z.leb_spec (10 ^ 21 * 2 ^ Zpos k) (Zpos m)) as [Hlarge|Hsmall];
      (split; [intros ?; first [done|lia]|intros ?; try lia]).
    destruct (hundredths_nearest m k) as (Hsign & Hlower & Hupper).
    exists (hundredths m (Zneg k)). do 3 (split; [done|]).
    unfold parseFloat.
    destruct (hundredths m (Zneg k)) as [|n|n]; [by destruct negative|done|lia].
Qed.

End Portions.

(** A quarter of a litre for ten, shown for three after seven clicks on
    the minus button: the exact product is 0.075, which rounds to 0.08,
    and 0.07 is shown, the quotient 3 / 10 having been rounded down before
    the product was computed.  And the number nearest to 0.045, for one,
    shown for three after two clicks on the plus button: the exact
    product of that number by 3 lies below 0.135 and above 0.13, and 0.14
    is shown, the product having been rounded up. *)
Lemma adjusted_quantity_not_exact :
  SFcompare (Js.ofZ 0) (Types.servings Sample.creamForTen) = Some Lt
  ∧ RecipeDetail.portions
      (Nat.iter 7 RecipeDetail.decrementPortions
         (RecipeDetail.initialLocal Sample.creamForTen))
    = Js.ofZ 3
  ∧ Types.quantity <$>
      RecipeDetail.adjustedIngredients Sample.creamForTen
        (Nat.iter 7 RecipeDetail.decrementPortions
           (RecipeDetail.initialLocal Sample.creamForTen))
    = [SFdiv 53 1024 (S754_finite false 7 0) (S754_finite false 100 0)]
  ∧ (∃ x, RecipeDetail.exactQuantity (Js.dividedBy (Js.ofZ 1) (Js.ofZ 4))
            (Js.ofZ 3) (Js.ofZ 10) = Some x
          ∧ Qeq x (Qmake 75 1000)
          ∧ RecipeDetail.roundedToHundredths x = 8%Z)
  ∧ SFdiv 53 1024 (S754_finite false 7 0) (S754_finite false 100 0)
    ≠ SFdiv 53 1024 (S754_finite false 8 0) (S754_finite false 100 0)
  ∧ RecipeDetail.portions
      (Nat.iter 2 RecipeDetail.incrementPortions
         (RecipeDetail.initialLocal Sample.creamForOne))
    = Js.ofZ 3
  ∧ Types.quantity <$>
      RecipeDetail.adjustedIngredients Sample.creamForOne
        (Nat.iter 2 RecipeDetail.incrementPortions
           (RecipeDetail.initialLocal Sample.creamForOne))
    = [SFdiv 53 1024 (S754_finite false 14 0) (S754_finite false 100 0)]
  ∧ (∃ x, RecipeDetail.exactQuantity (Js.dividedBy (Js.ofZ 45) (Js.ofZ 1000))
            (Js.ofZ 3) (Js.ofZ 1) = Some x
          ∧ Qlt (Qmake 13 100) x
          ∧ Qlt x (Qmake 135 1000)
          ∧ RecipeDetail.roundedToHundredths x = 13%Z).
Proof.
  split; [reflexivity|]. split; [reflexivity|]. split; [reflexivity|].
  split; [eexists; split; [reflexivity|]; by vm_compute|].
  split; [vm_compute; discriminate|].
  split; [reflexivity|]. split; [reflexivity|].
  eexists. split; [reflexivity|]. by vm_compute.
Qed.

(** ** The fetch service on any parsed value *)

Section ServiceAny.
Import Js Types GeminiServiceAny.
Variable numberToString : number → string.

Lemma join_error elements e :
  join elements = Throw e → Throw e ∈ elements.
Proof.
  induction elements as [|element rest IH]; cbn; [discriminate|].
  destruct element as [first|e']; cbn; [|intros [= <-]; left].
  destruct rest as [|element' rest]; [discriminate|].
  destruct (join (element' :: rest)) as [others|e']; cbn; [discriminate|].
  intros [= <-]. right. by apply IH.
Qed.

(** Induction on a value, through the elements of its arrays. *)
Lemma Value_array_ind (P : Value → Prop) :
  P VNull → (∀ b, P (VBool b)) → (∀ n, P (VNumber n)) → (∀ s, P (VString s)) →
  (∀ items, Forall P items → P (VArray items)) →
  (∀ fields, P (VObject fields)) →
  ∀ v, P v.
Proof.
  intros Hnull Hbool Hnumber Hstring Harray Hobject.
  exact (fix IH (v : Value) : P v :=
           match v with
           | VNull => Hnull
           | VBool b => Hbool b
           | VNumber n => Hnumber n
           | VString s => Hstring s
           | VArray items =>
               Harray items
                 ((fix go (l : list Value) : Forall P l :=
                     match l with
                     | [] => @List.Forall_nil Value P
                     | item :: rest =>
                         @List.Forall_cons Value P item rest (IH item) (go rest)
                     end) items)
           | VObject fields => Hobject fields
           end).
Qed.

(** A conversion to a string throws one error only. *)
Lemma toString_error v e :
  toString numberToString v = Throw e →
  e = ErrorObject "Cannot convert object to primitive value".
Proof.
  revert e. induction v as [|b|n|s|items IH|fields] using Value_array_ind;
    intros e; cbn; try discriminate.
  - intros Hjoin. apply join_error in Hjoin.
    induction IH as [|item rest Hitem _ IHrest]; [by apply elem_of_nil in Hjoin|].
    cbn in Hjoin. apply elem_of_cons in Hjoin as [Hthrow|Hrest].
    + destruct item as [|b|n|s|items|fields];
        first [discriminate Hthrow | symmetry in Hthrow; exact (Hitem _ Hthrow)].
    + by apply IHrest.
  - by destruct (fields !! "toString"); [intros [= <-]|].
Qed.

(** What [`${recipe.key}`] can throw. *)
Lemma interpolated_error recipe key e :
  interpolated numberToString recipe key = Throw e →
  (recipe = VNull
   ∧ e = ErrorObject ("Cannot read properties of null (reading '" +:+ key +:+ "')"))
  ∨ e = ErrorObject "Cannot convert object to primitive value".
Proof.
  unfold interpolated. destruct recipe as [|b|n|s|items|fields]; cbn;
    try discriminate.
  - intros [= <-]. by left.
  - destruct (fields !! key) as [v|]; [|discriminate].
    intros Hthrow. right. by apply (toString_error v).
Qed.

(** The promise of an element is rejected exactly when its name cannot be
    read, and then with what reading it throws. *)
Lemma imagePromise_cases provider index recipe :
  match interpolated numberToString recipe "recipeName" with
  | Throw e => imagePromise numberToString provider index recipe = Throw e
  | Return _ => ∃ url, imagePromise numberToString provider index recipe = Return url
  end.
Proof.
  unfold imagePromise, generateImageForRecipeWithRetry, imagePrompt.
  destruct (interpolated numberToString recipe "recipeName") as [recipeName|e];
    cbn -[retryLoop]; [|done].
  destruct (interpolated numberToString recipe "description") as [description|e];
    cbn -[retryLoop]; [|by eexists].
  match goal with
  | |- context [retryLoop ?p ?n ?r ?f ?i ?k] =>
      destruct (retryLoop p n r f i k).1 as [url|e]
  end; cbn; by eexists.
Qed.

Lemma all_cases {A} (promises : list (Completion A)) :
  match all promises with
  | Return values => promises = Return <$> values
  | Throw e =>
      ∃ i, promises !! i = Some (Throw e)
           ∧ ∀ j promise, j < i → promises !! j = Some promise →
               threw promise = false
  end.
Proof.
  induction promises as [|promise rest IH]; cbn; [done|].
  destruct promise as [a|e].
  - destruct (all rest) as [values|e]; [by rewrite IH|].
    destruct IH as (i & Hi & Hbefore). exists (S i). split; [done|].
    intros [|j] promise Hj; cbn; [by intros [= <-]|].
    apply Hbefore. lia.
  - exists 0. split; [done|]. intros j promise Hj. lia.
Qed.

(** What the promises of the elements settle to, together. *)
Lemma all_imap_cases (f : nat → Value → Completion string) items :
  (∀ index item,
     match interpolated numberToString item "recipeName" with
     | Throw e => f index item = Throw e
     | Return _ => ∃ url, f index item = Return url
     end) →
  match all (imap f items) with
  | Return imageUrls =>
      length imageUrls = length items
      ∧ Forall (λ item,
                  threw (interpolated numberToString item "recipeName") = false)
          items
  | Throw e =>
      ∃ i item,
        items !! i = Some item
        ∧ interpolated numberToString item "recipeName" = Throw e
        ∧ ∀ j item', j < i → items !! j = Some item' →
            threw (interpolated numberToString item' "recipeName") = false
  end.
Proof.
  revert f. induction items as [|item rest IH]; intros f Hf; cbn; [done|].
  pose proof (Hf 0 item) as Hitem.
  destruct (interpolated numberToString item "recipeName") as [recipeName|e]
    eqn:Hname.
  - destruct Hitem as [url ->].
    specialize (IH (f ∘ S) (λ index, Hf (S index))).
    destruct (all (imap (f ∘ S) rest)) as [imageUrls|e].
    + destruct IH as [Hlength Hnamed]. cbn. split; [by rewrite Hlength|].
      constructor; [by rewrite Hname|done].
    + destruct IH as (i & item' & Hlookup & Hthrow & Hbefore).
      exists (S i), item'. split; [done|]. split; [done|].
      intros [|j] item'' Hj; cbn; [intros [= <-]; by rewrite Hname|].
      apply Hbefore. lia.
  - rewrite Hitem. exists 0, item. split; [done|]. split; [done|].
    intros j item' Hj. lia.
Qed.

Lemma spread_imap (imageUrls : nat → string) (items : list Value) :
  spread <$> imap (λ index recipe,
                     {| spread := recipe; imageUrl := imageUrls index |}) items
  = items.
Proof.
  apply list_eq. intros i. rewrite list_lookup_fmap, list_lookup_imap.
  by destruct (items !! i).
Qed.

(** What the service returns once the body is an object with a non-empty
    array under [recipes]. *)
Lemma fetchRecipes_array prompt language provider fields item rest :
  generateText provider
    {| GeminiService.contents := prompt;
       GeminiService.systemInstruction :=
         GeminiService.systemInstructionFor language |}
  = TextJson (VObject fields) →
  fields !! "recipes" = Some (VArray (item :: rest)) →
  fetchRecipes numberToString prompt language provider
  = match all (imap (imagePromise numberToString provider) (item :: rest)) with
    | Return imageUrls =>
        Return (imap (λ index recipe,
                        {| spread := recipe; imageUrl := imageUrls !!! index |})
                     (item :: rest))
    | Throw e =>
        Throw (if instanceofError e then e
               else ErrorObject "An unknown error occurred while fetching recipes.")
    end.
Proof.
  intros Htext Hrecipes. unfold fetchRecipes, fetchRecipesBody.
  rewrite Htext. cbn -[all imap]. rewrite Hrecipes. cbn -[all imap].
  rewrite bool_decide_eq_false_2 by done.
  destruct (all _) as [imageUrls|e]; cbn -[imap]; [done|].
  by destruct (instanceofError e).
Qed.

(** C6. Of a body that parses, whatever it parses to.  An object whose
    [recipes] is the empty array gives the empty sequence and no error.  A
    value that is not an object with an array under [recipes] gives the
    parse-format error.  An object whose [recipes] is an array that is not
    empty never gives the parse-format error, whatever the array holds:
    the service returns one object per element, in order, each element
    spread under an image reference, exactly when the name of every
    element can be read, which it can of every number, boolean, string
    and array; an element that is null makes the service throw the
    TypeError of reading a property of null, when the names of the
    elements before it can be read. *)
Theorem fetchRecipes_shape prompt language provider parsedData :
  generateText provider
    {| GeminiService.contents := prompt;
       GeminiService.systemInstruction :=
         GeminiService.systemInstructionFor language |}
  = TextJson parsedData →
  let result := fetchRecipes numberToString prompt language provider in
  let named item :=
    threw (interpolated numberToString item "recipeName") = false in
  match parsedData with
  | VObject fields =>
      match fields !! "recipes" with
      | Some (VArray []) => result = Return []
      | Some (VArray items) =>
          result ≠ Throw (ErrorObject "Failed to parse recipes from API response.")
          ∧ (threw result = false ↔ Forall named items)
          ∧ (∀ fetched, result = Return fetched → spread <$> fetched = items)
          ∧ (Forall (λ item, match item with
                             | VNull | VObject _ => False
                             | _ => True
                             end) items →
             threw result = false)
          ∧ (∀ i, items !! i = Some VNull →
               (∀ j item, j < i → items !! j = Some item → named item) →
               result
               = Throw (ErrorObject "Cannot read properties of null (reading 'recipeName')"))
      | _ =>
          result = Throw (ErrorObject "Failed to parse recipes from API response.")
      end
  | _ => result = Throw (ErrorObject "Failed to parse recipes from API response.")
  end.
Proof.
  intros Htext result named.
  assert (∀ shape,
            truthy shape = false ∨ isArray (recipesOf shape) = false →
            parsedData = shape →
            result = Throw (ErrorObject "Failed to parse recipes from API response."))
    as Hshape.
  { intros shape Hcheck <-. subst result. unfold fetchRecipes, fetchRecipesBody.
    rewrite Htext. cbn. by destruct Hcheck as [-> | ->]; [|rewrite orb_true_r]. }
  destruct parsedData as [|b|n|s|items|fields];
    try (by refine (Hshape _ (or_intror _) eq_refl)).
  destruct (fields !! "recipes") as [[|b|n|s|[|item rest]|fields']|] eqn:Hrecipes;
    try (apply (Hshape (VObject fields)); [right; cbn; by rewrite Hrecipes|done]).
  { subst result. unfold fetchRecipes, fetchRecipesBody.
    rewrite Htext. cbn. by rewrite Hrecipes. }
  clear Hshape. subst result.
  rewrite (fetchRecipes_array _ _ _ _ _ _ Htext Hrecipes).
  pose proof (all_imap_cases (imagePromise numberToString provider) (item :: rest)
                (imagePromise_cases provider)) as Hall.
  destruct (all (imap (imagePromise numberToString provider) (item :: rest)))
    as [imageUrls|e].
  - destruct Hall as [Hlength Hnamed]. split; [done|]. split; [done|].
    split; [|split; [done|]].
    + intros fetched [= <-].
      exact (spread_imap (λ index, imageUrls !!! index) (item :: rest)).
    + intros i Hnull _. rewrite Forall_lookup in Hnamed.
      by specialize (Hnamed i VNull Hnull).
  - destruct Hall as (i & item' & Hlookup & Hthrow & Hbefore).
    assert (instanceofError e = true) as Herror.
    { by destruct (interpolated_error _ _ _ Hthrow) as [[_ ->]| ->]. }
    rewrite Herror. split.
    { destruct (interpolated_error _ _ _ Hthrow) as [[_ ->]| ->]; discriminate. }
    split.
    { split; [done|]. rewrite Forall_lookup. intros Hnamed.
      specialize (Hnamed i item' Hlookup). unfold named in Hnamed.
      by rewrite Hthrow in Hnamed. }
    split; [done|]. split.
    + rewrite Forall_lookup. intros Hplain. specialize (Hplain i item' Hlookup).
      unfold interpolated in Hthrow. by destruct item'.
    + intros i' Hnull Hbefore'.
      destruct (Nat.lt_trichotomy i i') as [Hlt|[->|Hgt]].
      * specialize (Hbefore' i item' Hlt Hlookup). unfold named in Hbefore'.
        by rewrite Hthrow in Hbefore'.
      * rewrite Hlookup in Hnull. injection Hnull as ->.
        by injection Hthrow as <-.
      * by specialize (Hbefore i' VNull Hgt Hnull).
Qed.

End ServiceAny.

Lemma fetchRecipes_shape_witness :
  GeminiServiceAny.fetchRecipes Sample.numberToString "Popular recipes" Types.en
    (Sample.anyProviderAnswering (Sample.anyBody [])) = Js.Return []
  ∧ GeminiServiceAny.fetchRecipes Sample.numberToString "Popular recipes" Types.en
      (Sample.anyProviderAnswering (GeminiServiceAny.VArray []))
    = Js.Throw (Js.ErrorObject "Failed to parse recipes from API response.")
  ∧ GeminiServiceAny.fetchRecipes Sample.numberToString "Popular recipes" Types.en
      (Sample.anyProviderAnswering
         (Sample.anyBody [GeminiServiceAny.VString "soup"; GeminiServiceAny.VNull]))
    = Js.Throw (Js.ErrorObject "Cannot read properties of null (reading 'recipeName')").
Proof.
  split; [|split].
  - exact (fetchRecipes_shape Sample.numberToString "Popular recipes" Types.en
             (Sample.anyProviderAnswering (Sample.anyBody []))
             (Sample.anyBody []) eq_refl).
  - exact (fetchRecipes_shape Sample.numberToString "Popular recipes" Types.en
             (Sample.anyProviderAnswering (GeminiServiceAny.VArray []))
             (GeminiServiceAny.VArray []) eq_refl).
  - pose proof (fetchRecipes_shape Sample.numberToString "Popular recipes" Types.en
                  (Sample.anyProviderAnswering
                     (Sample.anyBody [GeminiServiceAny.VString "soup";
                                      GeminiServiceAny.VNull]))
                  _ eq_refl) as (_ & _ & _ & _ & Hnull).
    apply (Hnull 1 eq_refl).
    intros [|j] item Hj; [intros [= <-]; reflexivity|lia].
Defined.

(** A body whose [recipes] holds a number, which is no recipe object: the
    service returns an object for it, made of an image reference alone,
    and raises no parse-format error. *)
Lemma fetchRecipes_number_listed :
  ¬ Forall (λ item, ∃ fields, item = GeminiServiceAny.VObject fields)
      [GeminiServiceAny.VNumber (Js.ofZ 1)]
  ∧ GeminiServiceAny.fetchRecipes Sample.numberToString "Popular recipes" Types.en
      (Sample.anyProviderAnswering
         (Sample.anyBody [GeminiServiceAny.VNumber (Js.ofZ 1)]))
    = Js.Return [ {| GeminiServiceAny.spread := GeminiServiceAny.VNumber (Js.ofZ 1);
                     GeminiServiceAny.imageUrl := "" |} ].
Proof.
  split; [|reflexivity].
  intros Hobjects. apply Forall_cons in Hobjects as [[fields Hobject] _].
  discriminate Hobject.
Qed.

(** An element whose name is an object with a property [toString] cannot
    be written into the prompt nor into the message of the [.catch]. *)
Example fetchRecipes_unnamed_throws :
  GeminiServiceAny.fetchRecipes Sample.numberToString "Popular recipes" Types.en
    (Sample.anyProviderAnswering
       (Sample.anyBody
          [GeminiServiceAny.VObject
             {[ "recipeName" :=
                  GeminiServiceAny.VObject
                    {[ "toString" := GeminiServiceAny.VNumber (Js.ofZ 1) ]} ]}]))
  = Js.Throw (Js.ErrorObject "Cannot convert object to primitive value").
Proof. reflexivity. Qed.

(** An element whose description cannot be written gets the empty image
    reference, no request being sent for it. *)
Example fetchRecipes_undescribed_listed :
  GeminiServiceAny.imageUrl <$>
    match GeminiServiceAny.fetchRecipes Sample.numberToString "Popular recipes"
            Types.en
            {| GeminiServiceAny.generateText := λ _,
                 GeminiServiceAny.TextJson
                   (Sample.anyBody
                      [GeminiServiceAny.VObject
                         {[ "description" :=
                              GeminiServiceAny.VObject
                                {[ "toString" := GeminiServiceAny.VNull ]} ]}]);
               GeminiServiceAny.generateImage := λ _ _, Sample.png "CCCC" |} with
    | Js.Return fetched => fetched
    | Js.Throw _ => []
    end
  = [""].
Proof. reflexivity. Qed.

(** ** The two models of the fetch service agree *)

Section TypedView.
Import Js Types GeminiServiceAny.
Variable numberToString : number → string.

Lemma interpolated_recipeName recipe :
  interpolated numberToString (ofRecipeText recipe) "recipeName"
  = Return (RecipeText.recipeName recipe).
Proof.
  unfold interpolated, ofRecipeText. cbn -[insert].
  by rewrite lookup_insert_eq.
Qed.

Lemma interpolated_description recipe :
  interpolated numberToString (ofRecipeText recipe) "description"
  = Return (RecipeText.description recipe).
Proof.
  unfold interpolated, ofRecipeText. cbn -[insert].
  rewrite lookup_insert_ne by done. by rewrite lookup_insert_eq.
Qed.

Lemma retryLoop_typed recipe retries replies remaining : ∀ i,
  retryLoop (GeminiService.imagePrompt recipe) (RecipeText.recipeName recipe)
    retries replies i remaining
  = GeminiService.retryLoop recipe retries replies i remaining.
Proof.
  induction remaining as [|remaining IH]; intros i; cbn; [done|].
  destruct (GeminiService.attemptImage (replies i)) as [url|error]; [done|].
  case_bool_decide; [done|]. by rewrite IH.
Qed.

Lemma imagePromise_typed provider index recipe :
  imagePromise numberToString (ofProvider provider) index (ofRecipeText recipe)
  = Return (GeminiService.imagePromise provider index recipe).
Proof.
  unfold imagePromise, generateImageForRecipeWithRetry, imagePrompt,
    GeminiService.imagePromise, GeminiService.generateImageForRecipeWithRetry.
  rewrite interpolated_recipeName, interpolated_description.
  cbn -[retryLoop GeminiService.retryLoop].
  change (retryLoop _ _ ?r ?f ?i ?k)
    with (retryLoop (GeminiService.imagePrompt recipe)
            (RecipeText.recipeName recipe) r f i k).
  rewrite retryLoop_typed.
  by destruct (GeminiService.retryLoop _ _ _ _ _).1.
Qed.

Lemma all_Return {A} (values : list A) : all (Return <$> values) = Return values.
Proof. induction values as [|a values IH]; cbn; [done|]. by rewrite IH. Qed.

Lemma truthy_ofJson v : truthy (ofJson v) = GeminiService.truthy v.
Proof. by destruct v. Qed.

(** On the bodies whose arrays hold recipes, the service on any value does
    what the service on recipes does: it throws the same, or returns the
    same recipes, each as the object it is. *)
Lemma fetchRecipes_typed_view prompt language provider :
  fetchRecipes numberToString prompt language (ofProvider provider)
  = match GeminiService.fetchRecipes prompt language provider with
    | Return fetched => Return (ofRecipe <$> fetched)
    | Throw e => Throw e
    end.
Proof.
  unfold fetchRecipes, fetchRecipesBody, GeminiService.fetchRecipes,
    GeminiService.fetchRecipesBody. cbn -[all imap].
  destruct (GeminiService.generateText provider _)
    as [[message|shown]| |syntaxError|parsedData]; cbn -[all imap]; try done.
  rewrite truthy_ofJson.
  destruct (GeminiService.truthy parsedData); cbn -[all imap]; [|done].
  destruct parsedData as [|b|n|s|items|fields]; cbn -[all imap]; try done.
  rewrite lookup_fmap.
  destruct (fields !! "recipes") as [[|b|n|s|items|fields']|]; cbn -[all imap];
    try done.
  rewrite length_fmap. case_bool_decide; cbn -[all imap]; [done|].
  assert (imap (imagePromise numberToString (ofProvider provider))
            (ofRecipeText <$> items)
          = Return <$> imap (GeminiService.imagePromise provider) items) as ->.
  { apply list_eq. intros i.
    rewrite list_lookup_fmap, !list_lookup_imap, list_lookup_fmap.
    destruct (items !! i) as [recipe|]; [|done]. cbn.
    by rewrite imagePromise_typed. }
  rewrite all_Return. cbn -[imap]. f_equal. apply list_eq. intros i.
  rewrite list_lookup_fmap, !list_lookup_imap, list_lookup_fmap.
  by destruct (items !! i) as [[]|].
Qed.

End TypedView.

(** ** The root controller *)

Section Controller.
Import Js Types.
Variable TRANSLATIONS : Language → App.Translation.

(** With the empty term the selection is cleared by [fetchRecipes] itself. *)
Lemma fetchRecipesBegin_default st :
  App.selectedRecipe (App.fetchRecipesBegin TRANSLATIONS "" st).1 = None.
Proof. reflexivity. Qed.


(** The search bar is rendered exactly when the view is not a detail view. *)
Lemma searchBarShown_render st :
  App.searchBarShown st = true ↔ ∀ recipe, App.render st ≠ App.DetailView recipe.
Proof.
  unfold App.searchBarShown, App.render.
  destruct (App.selectedRecipe st) as [recipe|]; split; try done.
  - intros Hshown. by destruct (Hshown recipe).
  - intros _ recipe. by repeat case_match.
Qed.

(** The search bar is shown only while no recipe is selected; a search
    submitted from it leaves none selected. *)
Lemma handleSearch_from_list searchTerm st :
  (∀ recipe, App.render st ≠ App.DetailView recipe) →
  App.selectedRecipe (App.handleSearch TRANSLATIONS searchTerm st).1 = None.
Proof.
  intros Hshown. unfold App.render in Hshown.
  destruct (App.selectedRecipe st) as [recipe|] eqn:Hsel.
  { by destruct (Hshown recipe). }
  unfold App.handleSearch, App.fetchRecipesBegin.
  by destruct (negb (truthyString searchTerm)).
Qed.


(** How the service fails: always with an [Error], whose message is its
    own or the one the provider gave. *)
Lemma service_failure prompt language provider e :
  GeminiService.fetchRecipes prompt language provider = Throw e →
  ∃ message,
    e = ErrorObject message
    ∧ (message = "" →
       let reply :=
         GeminiService.generateText provider
           {| GeminiService.contents := prompt;
              GeminiService.systemInstruction :=
                GeminiService.systemInstructionFor language |} in
       reply = GeminiService.TextThrows (ErrorObject "")
       ∨ reply = GeminiService.TextNotJson "").
Proof.
  unfold GeminiService.fetchRecipes, GeminiService.fetchRecipesBody.
  destruct (GeminiService.generateText provider _)
    as [[message|shown]| |message|parsedData]; cbn.
  - intros [= <-]. exists message. split; [done|]. intros ->. by left.
  - intros [= <-]. eexists. split; [done|]. discriminate.
  - intros [= <-]. eexists. split; [done|]. discriminate.
  - intros [= <-]. exists message. split; [done|]. intros ->. by right.
  - destruct (negb (GeminiService.truthy parsedData)
              || negb (GeminiService.isArray (GeminiService.recipesOf parsedData)));
      cbn.
    + intros [= <-]. eexists. split; [done|]. discriminate.
    + by case_bool_decide.
Qed.

(** C4, as the controller does it. For every failure of the text step the
    controller ends with the recipe list empty, not loading, and the error
    set to the message of the failure; that message is empty only when the
    provider threw an [Error] with an empty message or [JSON.parse] did,
    and when it is not empty the list view shows the error. *)
Theorem fetchRecipes_failure searchTerm provider st e :
  GeminiService.fetchRecipes
    (App.promptFor TRANSLATIONS (App.language st) searchTerm)
    (App.language st) provider = Throw e →
  let st' := App.fetchRecipes TRANSLATIONS searchTerm provider st in
  App.recipes st' = []
  ∧ App.isLoading st' = false
  ∧ ∃ message,
      e = ErrorObject message
      ∧ App.error st' = Some message
      ∧ (message ≠ "" → App.selectedRecipe st' = None →
         App.render st' = App.ErrorView message)
      ∧ (message = "" →
         let reply :=
           GeminiService.generateText provider
             {| GeminiService.contents :=
                  App.promptFor TRANSLATIONS (App.language st) searchTerm;
                GeminiService.systemInstruction :=
                  GeminiService.systemInstructionFor (App.language st) |} in
         reply = GeminiService.TextThrows (ErrorObject "")
         ∨ reply = GeminiService.TextNotJson "").
Proof.
  intros Hthrow.
  destruct (service_failure _ _ _ _ Hthrow) as (message & -> & Hempty).
  unfold App.fetchRecipes. cbn. rewrite Hthrow. cbn.
  split; [done|]. split; [done|].
  exists message. split; [done|]. split; [done|]. split; [|done].
  intros Hmessage. unfold App.render.
  destruct (negb (truthyString searchTerm)); cbn; intros Hsel;
    rewrite ?Hsel; unfold truthyString; by rewrite bool_decide_eq_true_2.
Qed.

(** When the service returns, the list is replaced and no error is set. *)
Lemma fetchRecipes_success searchTerm provider st fetched :
  GeminiService.fetchRecipes
    (App.promptFor TRANSLATIONS (App.language st) searchTerm)
    (App.language st) provider = Return fetched →
  let st' := App.fetchRecipes TRANSLATIONS searchTerm provider st in
  App.recipes st' = fetched ∧ App.isLoading st' = false ∧ App.error st' = None.
Proof.
  intros Hreturn. unfold App.fetchRecipes. cbn. rewrite Hreturn.
  by destruct (negb (truthyString searchTerm)).
Qed.

End Controller.


Lemma fetchRecipes_failure_witness :
  App.recipes
    (App.fetchRecipes Sample.translations "soup"
       (Sample.providerAnswering
          (GeminiService.TextThrows (Js.ErrorObject "429 quota exceeded")))
       Sample.loaded) = []
  ∧ App.render
      (App.fetchRecipes Sample.translations "soup"
         (Sample.providerAnswering
            (GeminiService.TextThrows (Js.ErrorObject "429 quota exceeded")))
         Sample.loaded) = App.ErrorView "429 quota exceeded".
Proof.
  destruct (fetchRecipes_failure Sample.translations "soup"
              (Sample.providerAnswering
                 (GeminiService.TextThrows (Js.ErrorObject "429 quota exceeded")))
              Sample.loaded (Js.ErrorObject "429 quota exceeded") eq_refl)
    as (Hrecipes & _ & message & Hmessage & _ & Hrender & _).
  split; [exact Hrecipes|].
  injection Hmessage as <-. apply Hrender; [discriminate|reflexivity].
Defined.

(** A failure whose message is empty leaves an empty message, and the list
    view shows the empty list instead of the error. *)
Lemma fetchRecipes_failure_empty_message :
  GeminiService.fetchRecipes "Recipes for: soup" Types.en
    (Sample.providerAnswering (GeminiService.TextThrows (Js.ErrorObject "")))
  = Js.Throw (Js.ErrorObject "")
  ∧ App.error
      (App.fetchRecipes Sample.translations "soup"
         (Sample.providerAnswering (GeminiService.TextThrows (Js.ErrorObject "")))
         Sample.loaded) = Some ""
  ∧ App.render
      (App.fetchRecipes Sample.translations "soup"
         (Sample.providerAnswering (GeminiService.TextThrows (Js.ErrorObject "")))
         Sample.loaded) = App.ListView [].
Proof. repeat split. Qed.

(** ** Regenerating an image from the detail view *)

Section Regenerate.
Import Js Types.

Lemma setImageUrl_other_fields recipe url :
  RecipeText.ofRecipe (setImageUrl recipe url) = RecipeText.ofRecipe recipe
  ∧ imageUrl (setImageUrl recipe url) = url.
Proof. done. Qed.

Lemma handleUpdateRecipe_lookup updated st i r :
  App.recipes st !! i = Some r →
  App.recipes (App.handleUpdateRecipe updated st) !! i
  = Some (if bool_decide (recipeName r = recipeName updated) then updated else r).
Proof.
  intros Hlookup. cbn. unfold App.updateRecipeUpdater.
  by rewrite list_lookup_fmap, Hlookup.
Qed.

Lemma handleUpdateRecipe_length updated st :
  length (App.recipes (App.handleUpdateRecipe updated st)) = length (App.recipes st).
Proof. cbn. unfold App.updateRecipeUpdater. by rewrite length_fmap. Qed.

(** C5, as the controller does it. After a successful regeneration the
    selection is the recipe of the detail view with the new image
    reference and all its other fields as they were; in the list every
    recipe that bears another name is unchanged and every entry that bears
    its name is replaced by that updated recipe, so when the entries of
    that name are the recipe itself only their image reference changes;
    nothing else of the controller's state changes. *)
Theorem regenerate_updates_by_name recipe replies l st url :
  (GeminiService.regenerateRecipeImage (RecipeText.ofRecipe recipe) replies).1
  = Return url →
  let st' := (RecipeDetail.handleRegenerateImage recipe replies l st).1.2 in
  let updated := setImageUrl recipe url in
  App.selectedRecipe st' = Some updated
  ∧ imageUrl updated = url
  ∧ RecipeText.ofRecipe updated = RecipeText.ofRecipe recipe
  ∧ length (App.recipes st') = length (App.recipes st)
  ∧ (∀ i r, App.recipes st !! i = Some r →
       App.recipes st' !! i
       = Some (if bool_decide (recipeName r = recipeName recipe)
               then updated else r))
  ∧ ((∀ r, r ∈ App.recipes st → recipeName r = recipeName recipe → r = recipe) →
     ∀ i r, App.recipes st !! i = Some r →
       App.recipes st' !! i
       = Some (if bool_decide (recipeName r = recipeName recipe)
               then setImageUrl r url else r))
  ∧ App.setRecipes (λ _, App.recipes st)
      (App.setSelectedRecipe (App.selectedRecipe st) st') = st.
Proof.
  intros Hreturn. unfold RecipeDetail.handleRegenerateImage.
  destruct (GeminiService.regenerateRecipeImage _ _) as [outcome sent].
  cbn in Hreturn. subst outcome. cbv beta iota zeta delta [fst snd].
  split; [done|]. split; [done|]. split; [done|].
  split; [apply handleUpdateRecipe_length|].
  split; [intros i r; exact (handleUpdateRecipe_lookup (setImageUrl recipe url) st i r)|].
  split; [|by destruct st].
  intros Hsame i r Hi.
  rewrite (handleUpdateRecipe_lookup (setImageUrl recipe url) st i r Hi).
  cbn [recipeName setImageUrl]. f_equal.
  case_bool_decide as Hname; [|done].
  by rewrite (Hsame r (list_elem_of_lookup_2 _ _ _ Hi) Hname).
Qed.

Lemma regenerate_updates_by_name_witness :
  App.selectedRecipe
    (RecipeDetail.handleRegenerateImage Sample.tomatoSoup (λ _, Sample.png "DDDD")
       (RecipeDetail.initialLocal Sample.tomatoSoup) Sample.detail).1.2
  = Some (setImageUrl Sample.tomatoSoup "data:image/png;base64,DDDD")
  ∧ App.recipes
      (RecipeDetail.handleRegenerateImage Sample.tomatoSoup (λ _, Sample.png "DDDD")
         (RecipeDetail.initialLocal Sample.tomatoSoup) Sample.detail).1.2 !! 1
    = Some Sample.beefStew.
Proof.
  destruct (regenerate_updates_by_name Sample.tomatoSoup (λ _, Sample.png "DDDD")
              (RecipeDetail.initialLocal Sample.tomatoSoup) Sample.detail
              "data:image/png;base64,DDDD" eq_refl)
    as (Hselected & _ & _ & _ & Hlist & _).
  split; [exact Hselected|].
  exact (Hlist 1 Sample.beefStew eq_refl).
Defined.

(** When the provider gave two recipes one name, regenerating the image of
    the first rewrites the second: its description is no longer its own. *)
Lemma regenerate_rewrites_namesake :
  App.recipes Sample.sameNames !! 1 = Some Sample.tomatoSoupCold
  ∧ Sample.tomatoSoupCold ≠ Sample.tomatoSoup
  ∧ description
      <$> App.recipes
            (RecipeDetail.handleRegenerateImage Sample.tomatoSoup
               (λ _, Sample.png "DDDD")
               (RecipeDetail.initialLocal Sample.tomatoSoup) Sample.sameNames).1.2
          !! 1
    ≠ Some (description Sample.tomatoSoupCold).
Proof. split; [reflexivity|]. split; discriminate. Qed.

End Regenerate.

(** ** The search bar *)

Section Trim.
Import Js.
Implicit Types (l pre post : Text) (c : N).

Lemma dropWhiteSpace_prefix l :
  ∃ pre, l = pre ++ dropWhiteSpace l ∧ forallb isWhiteSpace pre = true.
Proof.
  induction l as [|c l (pre & Hl & Hpre)]; [by exists []|]. cbn.
  destruct (isWhiteSpace c) eqn:Hc.
  - exists (c :: pre). cbn. rewrite Hc, Hpre. split; [by f_equal|done].
  - by exists [].
Qed.

Lemma dropWhiteSpace_head l :
  isWhiteSpace <$> head (dropWhiteSpace l) ≠ Some true.
Proof.
  induction l as [|c l IH]; [done|]. cbn.
  destruct (isWhiteSpace c) eqn:Hc; [done|]. cbn. by rewrite Hc.
Qed.

Lemma dropWhiteSpace_nil l :
  dropWhiteSpace l = [] ↔ forallb isWhiteSpace l = true.
Proof.
  induction l as [|c l IH]; [done|]. cbn.
  destruct (isWhiteSpace c); [done|]. split; discriminate.
Qed.

Lemma forallb_reverse (f : N → bool) l :
  forallb f (reverse l) = forallb f l.
Proof.
  induction l as [|c l IH]; [done|].
  rewrite reverse_cons, forallb_app, IH. cbn. by destruct (f c), (forallb f l).
Qed.

(** What is dropped in front is never put back. *)
Lemma dropWhiteSpace_all l :
  forallb isWhiteSpace (dropWhiteSpace l) = true → dropWhiteSpace l = [].
Proof.
  intros Hall. pose proof (dropWhiteSpace_head l) as Hhead.
  destruct (dropWhiteSpace l) as [|c rest]; [done|].
  cbn in *. destruct (isWhiteSpace c); [by destruct Hhead|done].
Qed.

Lemma trim_nil l :
  trim l = [] ↔ forallb isWhiteSpace l = true.
Proof.
  unfold trim. split.
  - intros Hnil. apply (f_equal reverse) in Hnil.
    rewrite reverse_involutive in Hnil. cbn in Hnil.
    apply dropWhiteSpace_nil in Hnil. rewrite forallb_reverse in Hnil.
    by apply dropWhiteSpace_nil, dropWhiteSpace_all.
  - intros Hall. apply dropWhiteSpace_nil in Hall. by rewrite Hall.
Qed.

Lemma trim_split l :
  ∃ pre post,
    l = pre ++ trim l ++ post
    ∧ forallb isWhiteSpace pre = true ∧ forallb isWhiteSpace post = true.
Proof.
  destruct (dropWhiteSpace_prefix l) as (pre & Hl & Hpre).
  destruct (dropWhiteSpace_prefix (reverse (dropWhiteSpace l)))
    as (post & Hrev & Hpost).
  exists pre, (reverse post). split_and!; [|done|by rewrite forallb_reverse].
  rewrite Hl at 1. f_equal. unfold trim.
  rewrite <- reverse_app, <- Hrev. by rewrite reverse_involutive.
Qed.

Lemma trim_last l :
  isWhiteSpace <$> last (trim l) ≠ Some true.
Proof.
  unfold trim. rewrite last_reverse. apply dropWhiteSpace_head.
Qed.

Lemma trim_head l :
  isWhiteSpace <$> head (trim l) ≠ Some true.
Proof.
  destruct (trim_split l) as (pre & post & Hl & Hpre & _).
  pose proof (dropWhiteSpace_head l) as Hhead.
  destruct (trim l) as [|c rest] eqn:Htrim; [done|].
  unfold trim in Htrim.
  destruct (dropWhiteSpace_prefix (reverse (dropWhiteSpace l)))
    as (post' & Hrev & _).
  apply (f_equal reverse) in Hrev.
  rewrite reverse_involutive, reverse_app, Htrim in Hrev.
  by rewrite Hrev in Hhead.
Qed.

(** The table of white space, spelled out. *)
Lemma isWhiteSpace_table c :
  isWhiteSpace c = true
  ↔ (c ∈ [9; 10; 11; 12; 13; 32; 160; 5760; 8232; 8233; 8239; 8287;
          12288; 65279]
     ∨ 8192 ≤ c ≤ 8202)%N.
Proof.
  unfold isWhiteSpace, whiteSpace. rewrite bool_decide_eq_true. split.
  - intros Hin. repeat (apply elem_of_cons in Hin as [->|Hin]);
      try (right; lia);
      try (left; repeat first [apply list_elem_of_here | apply list_elem_of_further]).
    by apply elem_of_nil in Hin.
  - intros [Hin|Hrange].
    + repeat (apply elem_of_cons in Hin as [->|Hin]);
        try (repeat first [apply list_elem_of_here | apply list_elem_of_further]).
      by apply elem_of_nil in Hin.
    + assert (c = 8192 ∨ c = 8193 ∨ c = 8194 ∨ c = 8195 ∨ c = 8196 ∨ c = 8197
              ∨ c = 8198 ∨ c = 8199 ∨ c = 8200 ∨ c = 8201 ∨ c = 8202)%N
        as Hcases by lia.
      clear Hrange.
      repeat (destruct Hcases as [->|Hcases];
              [repeat first [apply list_elem_of_here | apply list_elem_of_further]|]).
      subst c. repeat first [apply list_elem_of_here | apply list_elem_of_further].
Qed.

(** Only the empty text is held as the empty string. *)
Lemma stringOfText_empty l : stringOfText l = "" ↔ l = [].
Proof.
  split; [|by intros ->]. destruct l as [|c l]; [done|].
  unfold stringOfText. cbn. unfold bytesOfUnit.
  by repeat case_match.
Qed.

(** C10. For every text in the input, a sequence of UTF-16 code units,
    the search bar calls [onSearch] only when the text has a code unit that
    is not white space, and then with the text without its leading and
    trailing white space, white space being what [String.prototype.trim]
    strips; a text that is empty or all white space dispatches nothing,
    changes nothing in the controller and starts no fetch, and a term that
    is dispatched is never empty. *)
Theorem handleSubmit_trimmed (term : Text) :
  SearchBar.handleSubmit term
  = (if forallb isWhiteSpace term then None else Some (trim term))
  ∧ (∃ pre post,
       term = pre ++ trim term ++ post
       ∧ forallb isWhiteSpace pre = true ∧ forallb isWhiteSpace post = true)
  ∧ isWhiteSpace <$> head (trim term) ≠ Some true
  ∧ isWhiteSpace <$> last (trim term) ≠ Some true
  ∧ (∀ c, isWhiteSpace c = true
          ↔ (c ∈ [9; 10; 11; 12; 13; 32; 160; 5760; 8232; 8233; 8239; 8287;
                  12288; 65279]
             ∨ 8192 ≤ c ≤ 8202)%N)
  ∧ (if forallb isWhiteSpace term then True
     else trim term ≠ [] ∧ stringOfText (trim term) ≠ "")
  ∧ ∀ TRANSLATIONS st,
      SearchBar.submit TRANSLATIONS term st
      = if forallb isWhiteSpace term then (st, None)
        else ((App.handleSearch TRANSLATIONS (stringOfText (trim term)) st).1,
              Some (App.handleSearch TRANSLATIONS
                      (stringOfText (trim term)) st).2).
Proof.
  assert (Hsubmit : SearchBar.handleSubmit term
                    = if forallb isWhiteSpace term then None else Some (trim term)).
  { unfold SearchBar.handleSubmit, truthyText.
    destruct (forallb isWhiteSpace term) eqn:Hall.
    - apply trim_nil in Hall. by rewrite Hall.
    - rewrite bool_decide_eq_true_2; [done|].
      rewrite trim_nil. by rewrite Hall. }
  split; [exact Hsubmit|].
  split; [apply trim_split|].
  split; [apply trim_head|]. split; [apply trim_last|].
  split; [apply isWhiteSpace_table|]. split.
  - destruct (forallb isWhiteSpace term) eqn:Hall; [done|].
    assert (trim term ≠ []) as Hne by (rewrite trim_nil; by rewrite Hall).
    split; [done|]. by rewrite stringOfText_empty.
  - intros TRANSLATIONS st. unfold SearchBar.submit. rewrite Hsubmit.
    destruct (forallb isWhiteSpace term); [done|].
    by destruct (App.handleSearch TRANSLATIONS (stringOfText (trim term)) st).
Qed.

(** A tab between spaces, and an ideographic space with a line separator. *)
Example handleSubmit_spaces :
  SearchBar.handleSubmit [32; 32; 9; 32]%N = None
  ∧ SearchBar.handleSubmit [12288; 8232]%N = None.
Proof. split; reflexivity. Qed.

Example handleSubmit_padded :
  stringOfText <$> SearchBar.handleSubmit (textOfAscii "  tomato  soup ")
  = Some "tomato  soup".
Proof. reflexivity. Qed.

(** A text in Arabic script between a byte order mark and a narrow
    no-break space, and a word that ends in U+00E0. *)
Example handleSubmit_beyond_ascii :
  SearchBar.handleSubmit [65279; 1591; 1576; 1582; 8239]%N
  = Some [1591; 1576; 1582]%N
  ∧ SearchBar.handleSubmit [118; 111; 105; 108; 224; 32]%N
    = Some [118; 111; 105; 108; 224]%N.
Proof. split; reflexivity. Qed.

End Trim.

(** * Further properties of the sources *)

(** ** Favourites and the favourites view *)

Section FavoritesView.
Import Js Types.

Lemma includes_true (l : list string) (x : string) : includes l x = true ↔ x ∈ l.
Proof. unfold includes. by rewrite bool_decide_eq_true. Qed.

(** X1. [toggleFavorite] flips the membership of the given name and of no
    other: a name is a favourite afterwards when it is another name that
    was one, or the given name that was not; the heart of the given name
    changes sides. *)
Theorem toggleFavorite_flips (st : App.State) (n x : string) :
  (x ∈ App.favorites (App.toggleFavorite n st)
   ↔ (x ≠ n ∧ x ∈ App.favorites st) ∨ (x = n ∧ n ∉ App.favorites st))
  ∧ includes (App.favorites (App.toggleFavorite n st)) n
    = negb (includes (App.favorites st) n).
Proof.
  destruct st as [lang rs sel loading err F flt]. cbn.
  destruct (decide (n ∈ F)) as [Hin|Hnotin].
  - rewrite (toggle_present F n Hin). split.
    + rewrite list_elem_of_filter. tauto.
    + pose proof (removed_absent F n) as Hgone. unfold includes.
      by rewrite bool_decide_eq_false_2, bool_decide_eq_true_2.
  - rewrite (toggle_absent F n Hnotin). split.
    + rewrite elem_of_app, list_elem_of_singleton.
      destruct (decide (x = n)) as [->|Hne]; tauto.
    + unfold includes.
      rewrite bool_decide_eq_true_2 by set_solver.
      by rewrite bool_decide_eq_false_2.
Qed.

(** X2. In the favourites view, taking a name out of the favourites removes
    the recipes of that name from what is shown and leaves the others
    shown, in their order. *)
Theorem unfavorite_in_favorites_view (st : App.State) (n : string) :
  App.filter st = App.Filter_favorites →
  n ∈ App.favorites st →
  App.filteredRecipes (App.toggleFavorite n st)
  = filter (λ r, recipeName r ≠ n) (App.filteredRecipes st).
Proof.
  destruct st as [lang rs sel loading err F flt]. cbn. intros -> Hin.
  unfold App.filteredRecipes, App.favoriteRecipes. cbn.
  rewrite (toggle_present F n Hin), list_filter_filter.
  apply list_filter_iff. intros r.
  rewrite !includes_true, list_elem_of_filter. tauto.
Qed.

Lemma unfavorite_in_favorites_view_witness :
  App.filteredRecipes (App.toggleFavorite "Tomato Soup" Sample.loaded) = [].
Proof.
  rewrite (unfavorite_in_favorites_view Sample.loaded "Tomato Soup" eq_refl).
  - reflexivity.
  - apply list_elem_of_here.
Defined.

(** X3. In the favourites view, making a name a favourite adds the recipes
    of that name to what is shown, each at its place in the list: what is
    shown are the recipes whose name was a favourite or is that name. *)
Theorem favorite_in_favorites_view (st : App.State) (n : string) :
  App.filter st = App.Filter_favorites →
  n ∉ App.favorites st →
  App.filteredRecipes (App.toggleFavorite n st)
  = filter (λ r, recipeName r ∈ App.favorites st ∨ recipeName r = n)
      (App.recipes st).
Proof.
  destruct st as [lang rs sel loading err F flt]. cbn. intros -> Hnotin.
  unfold App.filteredRecipes, App.favoriteRecipes. cbn.
  rewrite (toggle_absent F n Hnotin).
  apply list_filter_iff. intros r.
  rewrite includes_true, elem_of_app, list_elem_of_singleton. tauto.
Qed.

Lemma favorite_in_favorites_view_witness :
  App.filteredRecipes (App.toggleFavorite "Beef Stew" Sample.loaded)
  = [Sample.tomatoSoup; Sample.beefStew].
Proof.
  rewrite (favorite_in_favorites_view Sample.loaded "Beef Stew" eq_refl).
  - reflexivity.
  - cbn. intros Hin. apply list_elem_of_singleton in Hin. discriminate Hin.
Defined.

Lemma favoriteRecipes_elem (favorites : list string) (recipes : list Recipe) r :
  r ∈ App.favoriteRecipes favorites recipes
  ↔ r ∈ recipes ∧ recipeName r ∈ favorites.
Proof.
  unfold App.favoriteRecipes. rewrite list_elem_of_filter, includes_true. tauto.
Qed.

(** X4. Whatever the filter, the recipes shown are recipes of the list in
    the order of the list, none twice that is not twice in the list; with
    the filter 'all' they are the whole list, and with 'favorites' exactly
    those whose name is a favourite. *)
Theorem filteredRecipes_sublist (st : App.State) :
  App.filteredRecipes st `sublist_of` App.recipes st
  ∧ match App.filter st with
    | App.Filter_all => App.filteredRecipes st = App.recipes st
    | App.Filter_favorites =>
        ∀ r, r ∈ App.filteredRecipes st
             ↔ r ∈ App.recipes st ∧ recipeName r ∈ App.favorites st
    end.
Proof.
  unfold App.filteredRecipes.
  destruct (App.filter st); split; try done.
  - apply sublist_filter.
  - intros r. apply favoriteRecipes_elem.
Qed.

End FavoritesView.

(** ** The list of cards *)

Section Cards.
Import Js Types.
Implicit Types (d a : list ascii).

Lemma list_ascii_of_string_app (s1 s2 : string) :
  String.list_ascii_of_string (s1 +:+ s2)
  = String.list_ascii_of_string s1 ++ String.list_ascii_of_string s2.
Proof.
  induction s1 as [|c s1 IH]; [done|].
  change (String c s1 +:+ s2) with (String c (s1 +:+ s2)). cbn. by rewrite IH.
Qed.

Lemma pretty_N_char_no_dash (x : N) : pretty_N_char x ≠ "-"%char.
Proof. unfold pretty_N_char. by repeat case_match. Qed.

(** The digits that [pretty] puts in front of its accumulator hold no dash. *)
Lemma pretty_N_go_no_dash (x : N) : ∀ s,
  ∃ d, String.list_ascii_of_string (pretty_N_go x s)
       = d ++ String.list_ascii_of_string s
       ∧ "-"%char ∉ d.
Proof.
  induction (N.lt_wf_0 x) as [x _ IH]. intros s.
  assert (x = 0 ∨ 0 < x)%N as [->|Hpos] by lia.
  - exists []. split; [by rewrite pretty_N_go_0|]. apply not_elem_of_nil.
  - rewrite pretty_N_go_step by done.
    destruct (IH (x `div` 10)%N (N.div_lt x 10 Hpos eq_refl)
                (String (pretty_N_char (x `mod` 10)) s)) as (d & Hd & Hdash).
    exists (d ++ [pretty_N_char (x `mod` 10)]). split.
    + rewrite Hd. cbn. by rewrite <- app_assoc.
    + rewrite elem_of_app, list_elem_of_singleton.
      intros [Hin|Heq]; [done|]. by apply (pretty_N_char_no_dash (x `mod` 10)%N).
Qed.

Lemma pretty_nat_no_dash (index : nat) :
  "-"%char ∉ String.list_ascii_of_string (pretty index).
Proof.
  unfold pretty, pretty_nat, pretty, pretty_N. case_decide.
  - cbn. intros Hin. apply list_elem_of_singleton in Hin. discriminate Hin.
  - destruct (pretty_N_go_no_dash (N.of_nat index) "") as (d & -> & Hdash).
    cbn. by rewrite app_nil_r.
Qed.

(** Two texts that agree before their first dash. *)
Lemma first_dash_split d1 : ∀ d2 a1 a2,
  "-"%char ∉ d1 → "-"%char ∉ d2 →
  d1 ++ "-"%char :: a1 = d2 ++ "-"%char :: a2 → d1 = d2.
Proof.
  induction d1 as [|c d1 IH]; intros [|c' d2] a1 a2 H1 H2 Heq; cbn in Heq.
  - done.
  - injection Heq as <- _. destruct H2. apply list_elem_of_here.
  - injection Heq as -> _. destruct H1. apply list_elem_of_here.
  - injection Heq as <- Heq. f_equal.
    apply not_elem_of_cons in H1 as [_ H1]. apply not_elem_of_cons in H2 as [_ H2].
    by apply (IH d2 a1 a2).
Qed.

(** The index can be read back from a key, whatever the name before it. *)
Lemma key_index (name1 name2 : string) (i j : nat) :
  name1 +:+ "-" +:+ pretty i = name2 +:+ "-" +:+ pretty j → i = j.
Proof.
  intros Heq. apply (f_equal String.list_ascii_of_string) in Heq.
  rewrite !list_ascii_of_string_app in Heq. cbn in Heq.
  apply (f_equal reverse) in Heq.
  rewrite !reverse_app, !reverse_cons, <- !app_assoc in Heq. cbn in Heq.
  apply first_dash_split in Heq.
  - apply (inj reverse) in Heq.
    apply (f_equal String.string_of_list_ascii) in Heq.
    rewrite !String.string_of_list_ascii_of_string in Heq.
    by apply (inj pretty) in Heq.
  - rewrite elem_of_reverse. apply pretty_nat_no_dash.
  - rewrite elem_of_reverse. apply pretty_nat_no_dash.
Qed.

Lemma render_cases TRANSLATIONS recipes language favorites filter :
  match RecipeList.render TRANSLATIONS recipes language favorites filter with
  | RecipeList.Message _ => recipes = []
  | RecipeList.Grid cards =>
      recipes ≠ []
      ∧ RecipeList.recipe <$> cards = recipes
      ∧ Forall (λ card, RecipeList.isFavorite card = true
                        ↔ recipeName (RecipeList.recipe card) ∈ favorites) cards
  end.
Proof.
  unfold RecipeList.render. case_bool_decide as Hempty.
  { by destruct recipes. }
  split; [by intros ->|]. split.
  - apply list_eq. intros i. rewrite list_lookup_fmap, list_lookup_imap.
    by destruct (recipes !! i).
  - apply Forall_lookup. intros i card. rewrite list_lookup_imap.
    destruct (recipes !! i) as [r|]; [|done]. intros [= <-]. cbn.
    apply includes_true.
Qed.

(** X5. The list renders the message for an empty list exactly when it is
    given no recipe; otherwise it renders one card per recipe, in order,
    the heart of a card filled exactly when the name of its recipe is a
    favourite, and no two cards have the same key, also when two recipes
    have the same name. *)
Theorem RecipeList_cards TRANSLATIONS recipes language favorites filter :
  match RecipeList.render TRANSLATIONS recipes language favorites filter with
  | RecipeList.Message _ => recipes = []
  | RecipeList.Grid cards =>
      recipes ≠ []
      ∧ RecipeList.recipe <$> cards = recipes
      ∧ NoDup (RecipeList.key <$> cards)
      ∧ Forall (λ card, RecipeList.isFavorite card = true
                        ↔ recipeName (RecipeList.recipe card) ∈ favorites) cards
  end.
Proof.
  pose proof (render_cases TRANSLATIONS recipes language favorites filter)
    as Hcases.
  unfold RecipeList.render in *. case_bool_decide as Hempty; [done|].
  destruct Hcases as (Hne & Hrecipes & Hhearts).
  split; [done|]. split; [done|]. split; [|done].
  apply NoDup_alt. intros i j k.
  rewrite !list_lookup_fmap, !list_lookup_imap.
  destruct (recipes !! i) as [r1|]; [|done].
  destruct (recipes !! j) as [r2|]; [|done]. cbn.
  intros [= <-] [= Hkey]. symmetry. by apply key_index in Hkey.
Qed.

(** X6. In the favourites view every card has its heart filled and shows
    a recipe of the list, and the message for no favourites is shown
    exactly when no recipe of the list bears a favourite name. *)
Theorem favorites_view_cards TRANSLATIONS (st : App.State) :
  App.filter st = App.Filter_favorites →
  match RecipeList.ofState TRANSLATIONS st with
  | RecipeList.Message text =>
      text = RecipeList.noFavorites (TRANSLATIONS (App.language st))
      ∧ Forall (λ r, recipeName r ∉ App.favorites st) (App.recipes st)
  | RecipeList.Grid cards =>
      Exists (λ r, recipeName r ∈ App.favorites st) (App.recipes st)
      ∧ Forall (λ card, RecipeList.isFavorite card = true
                        ∧ RecipeList.recipe card ∈ App.recipes st) cards
  end.
Proof.
  intros Hfilter. unfold RecipeList.ofState.
  pose proof (render_cases TRANSLATIONS (App.filteredRecipes st)
                (App.language st) (App.favorites st) (App.filter st)) as Hcards.
  assert (Hshown : ∀ r, r ∈ App.filteredRecipes st
                        ↔ r ∈ App.recipes st ∧ recipeName r ∈ App.favorites st).
  { intros r. unfold App.filteredRecipes. rewrite Hfilter.
    apply favoriteRecipes_elem. }
  destruct (RecipeList.render _ _ _ _ _) as [text|cards] eqn:Hrender.
  - split.
    + unfold RecipeList.render in Hrender. rewrite Hcards in Hrender.
      cbn in Hrender. rewrite Hfilter in Hrender. by injection Hrender as <-.
    + apply Forall_forall. intros r Hr Hfav.
      assert (r ∈ App.filteredRecipes st) as Hin by (apply Hshown; done).
      rewrite Hcards in Hin. by apply elem_of_nil in Hin.
  - destruct Hcards as (Hne & Hrecipes & Hhearts). split.
    + destruct (App.filteredRecipes st) as [|r rest] eqn:Hfiltered; [done|].
      apply Exists_exists. exists r. apply Hshown. left.
    + apply Forall_forall. intros card Hcard.
      assert (RecipeList.recipe card ∈ App.filteredRecipes st) as Hin.
      { rewrite <- Hrecipes. by apply list_elem_of_fmap_2. }
      apply Hshown in Hin as [Hin Hfav]. split; [|done].
      rewrite Forall_forall in Hhearts. by apply Hhearts.
Qed.

Lemma favorites_view_cards_witness :
  RecipeList.ofState Sample.messages Sample.loaded
  = RecipeList.Grid
      [ {| RecipeList.key := "Tomato Soup-0";
           RecipeList.recipe := Sample.tomatoSoup;
           RecipeList.isFavorite := true |} ]
  ∧ RecipeList.ofState Sample.messages
      (App.toggleFavorite "Tomato Soup" Sample.loaded)
    = RecipeList.Message "No favorites yet.".
Proof.
  pose proof (favorites_view_cards Sample.messages Sample.loaded eq_refl) as Hgrid.
  pose proof (favorites_view_cards Sample.messages
                (App.toggleFavorite "Tomato Soup" Sample.loaded) eq_refl) as Hnone.
  split; [reflexivity|].
  destruct (RecipeList.ofState Sample.messages
              (App.toggleFavorite "Tomato Soup" Sample.loaded)) as [text|cards].
  - destruct Hnone as [-> _]. reflexivity.
  - destruct Hnone as [Hexists _]. exfalso.
    apply Exists_exists in Hexists as (r & _ & Hfav). cbn in Hfav.
    by apply elem_of_nil in Hfav.
Defined.

End Cards.

(** ** The service, beyond the batch *)

Section RetryCases.
Import Js GeminiService.
Variables (recipe : RecipeText.t) (retries : nat) (replies : nat → ImageReply).

(** The two ways the loop ends once it is entered: at the first attempt
    that succeeds, or after the last attempt with what that attempt threw. *)
Lemma retryLoop_cases remaining : ∀ i,
  i + remaining = retries → 0 < remaining →
  (∃ k url,
      k < remaining
      ∧ (∀ j, i ≤ j < i + k → threw (attemptImage (replies j)) = true)
      ∧ attemptImage (replies (i + k)) = Return url
      ∧ retryLoop recipe retries replies i remaining
        = (Return url, replicate (S k) (imagePrompt recipe)))
  ∨ ((∀ j, i ≤ j < i + remaining → threw (attemptImage (replies j)) = true)
     ∧ retryLoop recipe retries replies i remaining
       = (attemptImage (replies (retries - 1)),
          replicate remaining (imagePrompt recipe))).
Proof.
  induction remaining as [|remaining IH]; intros i Hsum Hpos; [lia|]. cbn.
  destruct (attemptImage (replies i)) as [url|error] eqn:Hi.
  { left. exists 0, url. rewrite Nat.add_0_r.
    split; [lia|]. split; [intros j Hj; lia|]. by split. }
  case_bool_decide as Hlast.
  - right. assert (remaining = 0) as -> by lia. split.
    + intros j Hj. assert (j = i) as -> by lia. by rewrite Hi.
    + by rewrite <- Hlast, Hi.
  - destruct (IH (S i) ltac:(lia) ltac:(lia))
      as [(k & url & Hk & Hfail & Hok & Hrun)|[Hfail Hrun]]; rewrite Hrun.
    + left. exists (S k), url. split; [lia|]. split; [|split; [|done]].
      * intros j Hj. destruct (decide (j = i)) as [->|Hne]; [by rewrite Hi|].
        apply Hfail. lia.
      * by replace (i + S k) with (S i + k) by lia.
    + right. split; [|done].
      intros j Hj. destruct (decide (j = i)) as [->|Hne]; [by rewrite Hi|].
      apply Hfail. lia.
Qed.

End RetryCases.

Section ServiceMore.
Import Js Types GeminiService.

(** X7. With at least one attempt allowed, the image helper throws exactly
    when every one of its [retries] attempts fails; it then throws what the
    last attempt threw, never the error built after the loop, and has sent
    [retries] requests. *)
Theorem retry_throws_iff_all_fail recipe retries replies :
  0 < retries →
  let run := generateImageForRecipeWithRetry recipe retries replies in
  (threw run.1 = true
   ↔ ∀ k, k < retries → threw (attemptImage (replies k)) = true)
  ∧ (threw run.1 = true →
     run.1 = attemptImage (replies (retries - 1)) ∧ length run.2 = retries).
Proof.
  intros Hpos run. subst run. unfold generateImageForRecipeWithRetry.
  destruct (retryLoop_cases recipe retries replies retries 0 eq_refl Hpos)
    as [(k & url & Hk & Hfail & Hok & ->)|[Hfail ->]]; cbn [fst snd].
  - split; [|done]. split; [done|].
    intros Hall. specialize (Hall k Hk). cbn in Hok. by rewrite Hok in Hall.
  - split.
    + split; [|intros _; apply Hfail; lia].
      intros _ k Hk. apply Hfail. lia.
    + intros _. by rewrite length_replicate.
Qed.

Lemma retry_throws_iff_all_fail_witness :
  (generateImageForRecipeWithRetry
     (Sample.recipeText "Tomato Soup" "A warming soup.") 3
     (λ _, Sample.overloaded)).1
  = Throw (ErrorObject "503 The model is overloaded.").
Proof.
  destruct (retry_throws_iff_all_fail
              (Sample.recipeText "Tomato Soup" "A warming soup.") 3
              (λ _, Sample.overloaded) ltac:(lia)) as [Hiff Hlast].
  apply Hlast, Hiff. intros k _. reflexivity.
Defined.

(** X8. When the image helper returns an image it is that of the first
    attempt that succeeds: every attempt before it failed, and no request
    was sent after it. *)
Theorem retry_returns_first_success recipe retries replies url :
  (generateImageForRecipeWithRetry recipe retries replies).1 = Return url →
  ∃ k, k < retries
       ∧ (∀ j, j < k → threw (attemptImage (replies j)) = true)
       ∧ attemptImage (replies k) = Return url
       ∧ length (generateImageForRecipeWithRetry recipe retries replies).2 = S k.
Proof.
  unfold generateImageForRecipeWithRetry. intros Hreturn.
  destruct retries as [|retries]; [discriminate Hreturn|].
  destruct (retryLoop_cases recipe (S retries) replies (S retries) 0 eq_refl
              ltac:(lia))
    as [(k & url' & Hk & Hfail & Hok & Hrun)|[Hfail Hrun]];
    rewrite Hrun in Hreturn |- *; cbn [fst snd] in *.
  - injection Hreturn as ->. exists k. split; [done|].
    split; [intros j Hj; apply Hfail; lia|]. split; [done|].
    by rewrite length_replicate.
  - specialize (Hfail retries ltac:(lia)).
    replace (S retries - 1) with retries in Hreturn by lia.
    by rewrite Hreturn in Hfail.
Qed.

Lemma retry_returns_first_success_witness :
  ∃ k, k < 3
       ∧ length (generateImageForRecipeWithRetry
                   (Sample.recipeText "Beef Stew" "A hearty stew.") 3
                   (generateImage Sample.provider 1)).2 = S k.
Proof.
  destruct (retry_returns_first_success
              (Sample.recipeText "Beef Stew" "A hearty stew.") 3
              (generateImage Sample.provider 1)
              "data:image/png;base64,CCCC" eq_refl)
    as (k & Hk & _ & _ & Hlength).
  exists k. split; [exact Hk|exact Hlength].
Defined.

(** X9. One reply gives the data URL of its first part that has inline
    data, parts without any being skipped; when no part has inline data
    the attempt fails with the error for a missing image. *)
Theorem dataUrlOfParts_first_inline (parts : list Part) :
  match dataUrlOfParts parts with
  | Return url =>
      ∃ skipped part d rest,
        parts = skipped ++ part :: rest
        ∧ Forall (λ p, inlineData p = None) skipped
        ∧ inlineData part = Some d
        ∧ url = "data:" +:+ mimeType d +:+ ";base64," +:+ data d
  | Throw e =>
      Forall (λ p, inlineData p = None) parts
      ∧ e = ErrorObject "Image data not found in Gemini response."
  end.
Proof.
  induction parts as [|part parts IH]; cbn; [done|].
  destruct (inlineData part) as [d|] eqn:Hpart.
  - by exists [], part, d, parts.
  - destruct (dataUrlOfParts parts) as [url|e].
    + destruct IH as (skipped & part' & d & rest & -> & Hskipped & Hd & ->).
      exists (part :: skipped), part', d, rest. split; [done|].
      split; [by constructor|done].
    + destruct IH as [Hall ->]. split; [by constructor|done].
Qed.

Lemma dataUrlOfParts_form parts url :
  dataUrlOfParts parts = Return url →
  ∃ d, url = "data:" +:+ mimeType d +:+ ";base64," +:+ data d.
Proof.
  induction parts as [|part parts IH]; cbn; [done|].
  destruct (inlineData part) as [d|]; [|done].
  intros [= <-]. by exists d.
Qed.

(** X11. Whatever the provider throws, the service throws an [Error]: a
    thrown [Error] is passed on with its message, anything else is replaced
    by the error for an unknown failure; the same holds for the
    regeneration helper. *)
Theorem service_throws_errors prompt language provider recipe replies :
  match fetchRecipes prompt language provider with
  | Return _ => True
  | Throw e => instanceofError e = true
  end
  ∧ match (regenerateRecipeImage recipe replies).1 with
    | Return _ => True
    | Throw e => instanceofError e = true
    end
  ∧ match generateText provider
            {| contents := prompt;
               systemInstruction := systemInstructionFor language |} with
    | TextThrows (ErrorObject message) =>
        fetchRecipes prompt language provider = Throw (ErrorObject message)
    | TextThrows (NotAnError _) =>
        fetchRecipes prompt language provider
        = Throw (ErrorObject "An unknown error occurred while fetching recipes.")
    | _ => True
    end.
Proof.
  split_and!.
  - destruct (fetchRecipes prompt language provider) as [fetched|e] eqn:Hfetch;
      [done|].
    by destruct (service_failure _ _ _ _ Hfetch) as (message & -> & _).
  - unfold regenerateRecipeImage.
    destruct (generateImageForRecipeWithRetry recipe 1 replies) as [[url|e] sent];
      cbn; [done|].
    by destruct e.
  - unfold fetchRecipes, fetchRecipesBody.
    by destruct (generateText provider _) as [[message|shown]| | |].
Qed.

End ServiceMore.

Section ServiceAnyMore.
Import Js Types GeminiServiceAny.
Variable numberToString : number → string.

Lemma attemptImage_threw reply :
  threw (GeminiService.attemptImage reply) = true →
  match reply with
  | GeminiService.ImageThrows _ => True
  | GeminiService.ImageParts parts =>
      Forall (λ part, GeminiService.inlineData part = None) parts
  end.
Proof.
  destruct reply as [e|parts]; [done|]. cbn.
  induction parts as [|part parts IH]; cbn; [done|].
  destruct (GeminiService.inlineData part) eqn:Hpart; [done|].
  intros Hthrew. constructor; [done|by apply IH].
Qed.

Lemma attemptImage_returned reply url :
  GeminiService.attemptImage reply = Return url →
  ∃ skipped part rest d,
    reply = GeminiService.ImageParts (skipped ++ part :: rest)
    ∧ Forall (λ p, GeminiService.inlineData p = None) skipped
    ∧ GeminiService.inlineData part = Some d
    ∧ url = "data:" +:+ GeminiService.mimeType d +:+ ";base64," +:+
            GeminiService.data d.
Proof.
  destruct reply as [e|parts]; [done|]. cbn.
  induction parts as [|part parts IH]; cbn; [done|].
  destruct (GeminiService.inlineData part) as [d|] eqn:Hpart.
  - intros [= <-]. by exists [], part, parts, d.
  - intros Hreturn.
    destruct (IH Hreturn) as (skipped & part' & rest & d & [= ->] & Hskipped & Hd & ->).
    exists (part :: skipped), part', rest, d. split; [done|].
    split; [by constructor|done].
Qed.

(** An image that the loop returns is that of an attempt before which
    every attempt failed. *)
Lemma retryLoop_returned imagePrompt recipeName retries replies url remaining :
  ∀ i, i + remaining = retries →
  (retryLoop imagePrompt recipeName retries replies i remaining).1 = Return url →
  ∃ k, i ≤ k < retries
       ∧ (∀ j, i ≤ j < k → threw (GeminiService.attemptImage (replies j)) = true)
       ∧ GeminiService.attemptImage (replies k) = Return url.
Proof.
  induction remaining as [|remaining IH]; intros i Hsum; cbn; [done|].
  destruct (GeminiService.attemptImage (replies i)) as [url'|error] eqn:Hi; cbn.
  - intros [= ->]. exists i. split; [lia|]. split; [intros j Hj; lia|done].
  - case_bool_decide; cbn; [done|].
    specialize (IH (S i) ltac:(lia)).
    destruct (retryLoop imagePrompt recipeName retries replies (S i) remaining)
      as [result sent]. cbn in *.
    intros Hreturn. destruct (IH Hreturn) as (k & Hk & Hfail & Hok).
    exists k. split; [lia|]. split; [|done].
    intros j Hj. destruct (decide (j = i)) as [->|Hne]; [by rewrite Hi|].
    apply Hfail. lia.
Qed.

Lemma imagePromise_returned provider index recipe url :
  imagePromise numberToString provider index recipe = Return url →
  url = ""
  ∨ ∃ k, k < 3
         ∧ (∀ j, j < k →
              threw (GeminiService.attemptImage (generateImage provider index j))
              = true)
         ∧ GeminiService.attemptImage (generateImage provider index k) = Return url.
Proof.
  unfold imagePromise, generateImageForRecipeWithRetry.
  destruct (imagePrompt numberToString recipe) as [prompt|e];
    destruct (interpolated numberToString recipe "recipeName") as [recipeName|e'];
    cbn -[retryLoop]; try (intros [= <-]; by left); try discriminate.
  destruct (retryLoop prompt recipeName GeminiService.defaultRetries
              (generateImage provider index) 0 GeminiService.defaultRetries).1
    as [url'|e] eqn:Hloop; cbn; [|intros [= <-]; by left].
  intros [= ->]. right.
  destruct (retryLoop_returned _ _ _ _ _ _ 0 eq_refl Hloop) as (k & Hk & Hfail & Hok).
  exists k. unfold GeminiService.defaultRetries in Hk. split; [lia|].
  split; [|done]. intros j Hj. apply Hfail. lia.
Qed.

(** X10. When the body parses to an object with an array under [recipes]
    and the service returns, it returns one object per element of the
    array, in order, each the element itself spread under an image
    reference.  That reference is the empty string, or else the data URL
    of the first part with inline data of the reply to one of the three
    requests for that position, every earlier request for the position
    having thrown or been answered without inline data. *)
Theorem fetchRecipes_text_kept prompt language provider fields items fetched :
  generateText provider
    {| GeminiService.contents := prompt;
       GeminiService.systemInstruction :=
         GeminiService.systemInstructionFor language |}
  = TextJson (VObject fields) →
  fields !! "recipes" = Some (VArray items) →
  fetchRecipes numberToString prompt language provider = Return fetched →
  spread <$> fetched = items
  ∧ ∀ index r, fetched !! index = Some r →
      let failed k :=
        match generateImage provider index k with
        | GeminiService.ImageThrows _ => True
        | GeminiService.ImageParts parts =>
            Forall (λ part, GeminiService.inlineData part = None) parts
        end in
      imageUrl r = ""
      ∨ ∃ k skipped part rest d,
          k < 3
          ∧ (∀ j, j < k → failed j)
          ∧ generateImage provider index k
            = GeminiService.ImageParts (skipped ++ part :: rest)
          ∧ Forall (λ p, GeminiService.inlineData p = None) skipped
          ∧ GeminiService.inlineData part = Some d
          ∧ imageUrl r
            = "data:" +:+ GeminiService.mimeType d +:+ ";base64," +:+
              GeminiService.data d.
Proof.
  intros Htext Hrecipes Hreturn.
  destruct items as [|item rest].
  { unfold fetchRecipes, fetchRecipesBody in Hreturn.
    rewrite Htext in Hreturn. cbn in Hreturn. rewrite Hrecipes in Hreturn.
    cbn in Hreturn. injection Hreturn as <-. split; [done|].
    intros index r Hlookup. by rewrite lookup_nil in Hlookup. }
  rewrite (fetchRecipes_array _ _ _ _ _ _ _ Htext Hrecipes) in Hreturn.
  pose proof (all_cases (imap (imagePromise numberToString provider) (item :: rest)))
    as Hall.
  destruct (all (imap (imagePromise numberToString provider) (item :: rest)))
    as [imageUrls|e]; [|discriminate].
  assert (fetched
          = imap (λ index recipe,
                    {| spread := recipe; imageUrl := imageUrls !!! index |})
              (item :: rest)) as -> by congruence.
  clear Hreturn.
  split; [exact (spread_imap (λ index, imageUrls !!! index) (item :: rest))|].
  intros index r Hlookup failed.
  rewrite list_lookup_imap in Hlookup.
  destruct ((item :: rest) !! index) as [recipe|] eqn:Hitem; [|done].
  injection Hlookup as <-. cbn [imageUrl].
  assert (imagePromise numberToString provider index recipe
          = Return (imageUrls !!! index)) as Hpromise.
  { pose proof (f_equal (λ promises, promises !! index) Hall) as Hindex.
    cbn beta in Hindex. rewrite list_lookup_imap, Hitem, list_lookup_fmap in Hindex.
    destruct (imageUrls !! index) as [url|] eqn:Hurl; [|done].
    cbn in Hindex. injection Hindex as ->. f_equal.
    symmetry. by apply list_lookup_total_correct. }
  destruct (imagePromise_returned _ _ _ _ Hpromise) as [->|(k & Hk & Hfail & Hok)];
    [by left|right].
  destruct (attemptImage_returned _ _ Hok)
    as (skipped & part & rest' & d & Hreply & Hskipped & Hd & Hurl).
  exists k, skipped, part, rest', d. split; [done|].
  split; [intros j Hj; apply attemptImage_threw, Hfail, Hj|done].
Qed.

End ServiceAnyMore.

Lemma fetchRecipes_text_kept_witness :
  ∃ fetched,
    GeminiServiceAny.fetchRecipes Sample.numberToString "Popular recipes" Types.en
      (GeminiServiceAny.ofProvider Sample.provider)
    = Js.Return fetched
    ∧ GeminiServiceAny.spread <$> fetched
      = [GeminiServiceAny.ofRecipeText
           (Sample.recipeText "Tomato Soup" "A warming soup.");
         GeminiServiceAny.ofRecipeText
           (Sample.recipeText "Beef Stew" "A hearty stew.")]
    ∧ GeminiServiceAny.imageUrl <$> fetched = [""; "data:image/png;base64,CCCC"].
Proof.
  eexists. split; [reflexivity|].
  split; [|reflexivity].
  exact (proj1 (fetchRecipes_text_kept Sample.numberToString "Popular recipes"
                  Types.en (GeminiServiceAny.ofProvider Sample.provider)
                  (GeminiServiceAny.ofJson <$>
                     {[ "recipes" :=
                          GeminiService.JArray
                            [Sample.recipeText "Tomato Soup" "A warming soup.";
                             Sample.recipeText "Beef Stew" "A hearty stew."] ]})
                  _ _ eq_refl eq_refl eq_refl)).
Defined.

(** ** The controller, beyond a search *)

Section ControllerMore.
Import Js Types.
Variable TRANSLATIONS : Language → App.Translation.

(** X12. When a call to the service settles, in whatever state the
    controller then is, the controller stops loading and favourites,
    filter, language and selection stay as they are; a result replaces the
    list and leaves the error as it is, a failure empties the list and
    sets the error to its message. So a run of [fetchRecipes] with no
    other event between its start and its end never ends with an error
    beside a list that is not empty, while a result that settles after
    the failure of another run is listed with the error of that run still
    set. *)
Theorem settle_effect (outcome : Completion (list Recipe)) (st : App.State) :
  let st' := App.fetchRecipesSettle outcome st in
  App.isLoading st' = false
  ∧ App.favorites st' = App.favorites st
  ∧ App.filter st' = App.filter st
  ∧ App.language st' = App.language st
  ∧ App.selectedRecipe st' = App.selectedRecipe st
  ∧ match outcome with
    | Return fetched => App.recipes st' = fetched ∧ App.error st' = App.error st
    | Throw (ErrorObject message) =>
        App.recipes st' = [] ∧ App.error st' = Some message
    | Throw (NotAnError _) =>
        App.recipes st' = [] ∧ App.error st' = Some "An unknown error occurred"
    end
  ∧ App.render st' ≠ App.SpinnerView
  ∧ (∀ searchTerm provider,
       let alone := App.fetchRecipes TRANSLATIONS searchTerm provider st in
       App.error alone = None ∨ App.recipes alone = [])
  ∧ (∀ fetched message,
       let late :=
         App.fetchRecipesSettle (Return fetched)
           (App.fetchRecipesSettle (Throw (ErrorObject message)) st) in
       App.error late = Some message ∧ App.recipes late = fetched).
Proof.
  cbv zeta.
  assert (∀ searchTerm provider,
            App.error (App.fetchRecipes TRANSLATIONS searchTerm provider st) = None
            ∨ App.recipes (App.fetchRecipes TRANSLATIONS searchTerm provider st)
              = []) as Halone.
  { intros searchTerm provider. unfold App.fetchRecipes, App.fetchRecipesBegin.
    cbv beta iota zeta.
    match goal with
    | |- context [App.fetchRecipesSettle ?o _] => destruct o as [fetched|e]
    end; [left|by right].
    cbn. by destruct (truthyString searchTerm). }
  assert (App.render (App.fetchRecipesSettle outcome st) ≠ App.SpinnerView)
    as Hrender.
  { unfold App.render.
    destruct outcome as [fetched|e]; cbn; by repeat case_match. }
  by destruct outcome as [fetched|[message|shown]].
Qed.

(** X13. Immediately after a click on the logo, and immediately after
    the effect of a change to another language has run, no recipe is
    selected, the controller is loading, so that the spinner is shown, and
    the call that is awaited is for the default prompt in the language
    then current; the logo also resets the filter; the list and the
    favourites are not touched. *)
Theorem home_and_language (l : Language) (st : App.State) :
  l ≠ App.language st →
  let home := App.handleLogoClick TRANSLATIONS st in
  let changed := App.changeLanguage TRANSLATIONS l st in
  App.selectedRecipe home.1 = None
  ∧ App.render home.1 = App.SpinnerView
  ∧ App.filter home.1 = App.Filter_all
  ∧ App.prompt home.2 = App.initialPrompt (TRANSLATIONS (App.language st))
  ∧ App.inLanguage home.2 = App.language st
  ∧ App.selectedRecipe changed.1 = None
  ∧ App.render changed.1 = App.SpinnerView
  ∧ App.language changed.1 = l
  ∧ App.filter changed.1 = App.filter st
  ∧ App.prompt changed.2 = App.initialPrompt (TRANSLATIONS l)
  ∧ App.inLanguage changed.2 = l
  ∧ App.recipes home.1 = App.recipes st
  ∧ App.recipes changed.1 = App.recipes st
  ∧ App.favorites home.1 = App.favorites st
  ∧ App.favorites changed.1 = App.favorites st.
Proof. intros _. by repeat split. Qed.

Lemma dropWhiteSpace_id (l : Text) :
  isWhiteSpace <$> head l ≠ Some true → dropWhiteSpace l = l.
Proof.
  destruct l as [|c l]; [done|]. cbn.
  destruct (isWhiteSpace c); [by intros []|done].
Qed.

Lemma trim_idemp (l : Text) : trim (trim l) = trim l.
Proof.
  pose proof (trim_head l) as Hhead. pose proof (trim_last l) as Hlast.
  unfold trim at 1. rewrite (dropWhiteSpace_id _ Hhead).
  rewrite dropWhiteSpace_id; [by rewrite reverse_involutive|].
  by rewrite head_reverse.
Qed.

(** X14. A text, any sequence of UTF-16 code units, submitted from the
    search bar either is all white space and changes nothing, or leaves
    the controller, immediately afterwards, showing the spinner with the
    filter reset and the list untouched, the call awaited being for the
    search prompt of the trimmed text, never the default prompt; the term
    that is dispatched is not empty and trimming it again changes nothing. *)
Theorem submit_from_list (term : Text) (st : App.State) :
  App.searchBarShown st = true →
  match SearchBar.submit TRANSLATIONS term st with
  | (st', Some call) =>
      trim term ≠ []
      ∧ trim (trim term) = trim term
      ∧ stringOfText (trim term) ≠ ""
      ∧ App.prompt call
        = App.searchPrompt (TRANSLATIONS (App.language st))
            (stringOfText (trim term))
      ∧ App.render st' = App.SpinnerView
      ∧ App.filter st' = App.Filter_all
      ∧ App.recipes st' = App.recipes st
  | (st', None) => st' = st ∧ forallb isWhiteSpace term = true
  end.
Proof.
  intros Hshown. unfold SearchBar.submit, SearchBar.handleSubmit.
  unfold App.searchBarShown in Hshown.
  destruct (App.selectedRecipe st) as [recipe|] eqn:Hsel; [done|].
  destruct (truthyText (trim term)) eqn:Htruthy.
  - unfold truthyText in Htruthy. apply bool_decide_eq_true in Htruthy.
    assert (stringOfText (trim term) ≠ "") as Hstring.
    { by rewrite stringOfText_empty. }
    unfold App.handleSearch, App.fetchRecipesBegin, App.promptFor, App.render.
    unfold truthyString. rewrite (bool_decide_eq_true_2 _ Hstring). cbn.
    rewrite Hsel. split; [done|]. by split; [apply trim_idemp|].
  - split; [done|]. unfold truthyText in Htruthy.
    apply bool_decide_eq_false in Htruthy. apply trim_nil.
    destruct (decide (trim term = [])); [done|by destruct Htruthy].
Qed.

End ControllerMore.

Lemma submit_from_list_witness :
  SearchBar.submit Sample.translations (Js.textOfAscii "  tomato soup ")
    Sample.loaded
  = (App.setError None (App.setIsLoading true
       (App.setFilter App.Filter_all Sample.loaded)),
     Some {| App.prompt := "Recipes for: tomato soup";
             App.inLanguage := Types.en |})
  ∧ Js.trim (Js.textOfAscii "  tomato soup ") ≠ [].
Proof.
  pose proof (submit_from_list Sample.translations
                (Js.textOfAscii "  tomato soup ") Sample.loaded eq_refl)
    as Hsubmit.
  split; [reflexivity|].
  change (SearchBar.submit Sample.translations (Js.textOfAscii "  tomato soup ")
            Sample.loaded)
    with (App.setError None (App.setIsLoading true
            (App.setFilter App.Filter_all Sample.loaded)),
          Some {| App.prompt := "Recipes for: tomato soup";
                  App.inLanguage := Types.en |})
    in Hsubmit.
  exact (proj1 Hsubmit).
Defined.

Lemma home_and_language_witness :
  Types.fr ≠ App.language Sample.detail
  ∧ App.render (App.changeLanguage Sample.translations Types.fr Sample.detail).1
    = App.SpinnerView.
Proof.
  assert (Hother : Types.fr ≠ App.language Sample.detail) by discriminate.
  split; [exact Hother|].
  exact (proj1 (proj2 (proj2 (proj2 (proj2 (proj2 (proj2
           (home_and_language Sample.translations Types.fr Sample.detail
              Hother)))))))).
Defined.

(** ** Updating a recipe, selecting and going back *)

Section UpdateMore.
Import Js Types.

Lemma updateRecipeUpdater_names updated (prevRecipes : list Recipe) :
  recipeName <$> App.updateRecipeUpdater updated prevRecipes
  = recipeName <$> prevRecipes.
Proof.
  unfold App.updateRecipeUpdater. rewrite <- list_fmap_compose.
  apply list_fmap_ext. intros i r _. cbn. by case_bool_decide.
Qed.

(** A filter on the names sees the same recipes before and after. *)
Lemma favoriteRecipes_names favorites (l1 l2 : list Recipe) :
  recipeName <$> l1 = recipeName <$> l2 →
  recipeName <$> App.favoriteRecipes favorites l1
  = recipeName <$> App.favoriteRecipes favorites l2.
Proof.
  unfold App.favoriteRecipes. revert l2.
  induction l1 as [|r1 l1 IH]; intros [|r2 l2] Hnames; try done.
  injection Hnames as Hname Hnames. rewrite !filter_cons. rewrite Hname.
  case_decide; cbn; [f_equal; [done|]|]; by apply IH.
Qed.

(** X15. [handleUpdateRecipe] keeps the number, the order and the names of
    the recipes of the list, so that the same names are shown before and
    after under either filter; done twice it does what it does once; and
    when no recipe bears the name of the update the list is unchanged. *)
Theorem handleUpdateRecipe_keeps_names (updated : Recipe) (st : App.State) :
  let st' := App.handleUpdateRecipe updated st in
  recipeName <$> App.recipes st' = recipeName <$> App.recipes st
  ∧ recipeName <$> App.filteredRecipes st' = recipeName <$> App.filteredRecipes st
  ∧ App.handleUpdateRecipe updated st' = st'
  ∧ (Forall (λ r, recipeName r ≠ recipeName updated) (App.recipes st) →
     App.recipes st' = App.recipes st).
Proof.
  destruct st as [lang rs sel loading err F flt]. cbn.
  pose proof (updateRecipeUpdater_names updated rs) as Hnames.
  split; [done|]. split; [|split].
  - unfold App.filteredRecipes. cbn. destruct flt; [done|].
    by apply favoriteRecipes_names.
  - unfold App.handleUpdateRecipe, App.setRecipes, App.setSelectedRecipe. cbn.
    f_equal. unfold App.updateRecipeUpdater. rewrite <- list_fmap_compose.
    apply list_fmap_ext. intros i r _. cbn.
    destruct (decide (recipeName r = recipeName updated)) as [Hname|Hname].
    + rewrite (bool_decide_eq_true_2 _ Hname).
      by rewrite bool_decide_eq_true_2.
    + rewrite (bool_decide_eq_false_2 _ Hname).
      by rewrite (bool_decide_eq_false_2 _ Hname).
  - intros Hother. unfold App.updateRecipeUpdater.
    rewrite <- (list_fmap_id rs) at 2. apply Forall_fmap_ext_1.
    eapply Forall_impl; [exact Hother|]. intros r Hne. cbn.
    by rewrite bool_decide_eq_false_2.
Qed.

(** X16. From the list view, a click on a card opens the detail view of
    its recipe and going back gives the state before the click; a click on
    the heart of a card changes the favourites and opens nothing. *)
Theorem select_and_back (recipe : Recipe) (st : App.State) :
  App.selectedRecipe st = None →
  App.render (RecipeCard.onClick recipe st) = App.DetailView recipe
  ∧ RecipeDetail.onBack (RecipeCard.onClick recipe st) = st
  ∧ App.selectedRecipe (RecipeCard.handleFavoriteClick recipe st) = None
  ∧ App.setFavorites (λ _, App.favorites st)
      (RecipeCard.handleFavoriteClick recipe st) = st.
Proof.
  destruct st as [lang rs sel loading err F flt]. cbn. intros ->. done.
Qed.

Lemma select_and_back_witness :
  RecipeDetail.onBack (RecipeCard.onClick Sample.beefStew Sample.loaded)
  = Sample.loaded.
Proof.
  exact (proj1 (proj2 (select_and_back Sample.beefStew Sample.loaded eq_refl))).
Defined.

End UpdateMore.

(** ** The image that is shown *)

Section Images.
Import Js Types GeminiService.

Lemma dataUrl_not_empty (d : InlineData) :
  "data:" +:+ mimeType d +:+ ";base64," +:+ data d ≠ "".
Proof. discriminate. Qed.

Lemma truthyString_false (s : string) : truthyString s = false ↔ s = "".
Proof.
  unfold truthyString. rewrite bool_decide_eq_false.
  split; [|intros -> Hne; by apply Hne].
  intros Hnot. destruct (decide (s = "")); [done|by destruct Hnot].
Qed.

(** X17. Neither the card nor the detail view ever gives the image element
    an empty source: a recipe without image reference is shown with the
    placeholder, and in the detail view with the button to regenerate; the
    detail view shows the recipe's own image exactly when the reference is
    not empty and no load error is recorded. *)
Theorem image_source_never_empty (recipe : Recipe) (l : RecipeDetail.Local) :
  RecipeCard.imageSrc recipe ≠ ""
  ∧ RecipeDetail.imageSrc recipe l ≠ ""
  ∧ RecipeCard.handleImageError (RecipeCard.imageSrc recipe) ≠ ""
  ∧ (RecipeDetail.showRegenerateButton recipe l = false
     ↔ imageUrl recipe ≠ "" ∧ RecipeDetail.imageError l = false)
  ∧ (if RecipeDetail.showRegenerateButton recipe l
     then RecipeDetail.imageSrc recipe l = RecipeDetail.PLACEHOLDER_IMAGE
     else RecipeDetail.imageSrc recipe l = imageUrl recipe)
  ∧ (if bool_decide (imageUrl recipe = "")
     then RecipeCard.imageSrc recipe = RecipeCard.PLACEHOLDER_IMAGE
     else RecipeCard.imageSrc recipe = imageUrl recipe).
Proof.
  unfold RecipeCard.imageSrc, RecipeDetail.imageSrc,
    RecipeDetail.showRegenerateButton, RecipeCard.handleImageError.
  destruct (truthyString (imageUrl recipe)) eqn:Htruthy.
  - assert (imageUrl recipe ≠ "") as Hne.
    { unfold truthyString in Htruthy. by apply bool_decide_eq_true in Htruthy. }
    rewrite (bool_decide_eq_false_2 _ Hne). cbn.
    destruct (RecipeDetail.imageError l); cbn; split_and!; try done;
      split; try done; by intros [_ ?].
  - apply truthyString_false in Htruthy. rewrite Htruthy. cbn.
    split_and!; try done. split; [done|]. by intros [? _].
Qed.

(** X18. From the batch to the views: a recipe whose three image attempts
    fail comes back with an empty image reference, is shown with the
    placeholder on its card, and with the placeholder and the button to
    regenerate when its detail view opens. *)
Theorem failed_image_shown_as_placeholder
    prompt language provider fields items index recipe :
  generateText provider
    {| contents := prompt; systemInstruction := systemInstructionFor language |}
  = TextJson (JObject fields) →
  fields !! "recipes" = Some (JArray items) →
  items !! index = Some recipe →
  (∀ k, k < 3 → threw (attemptImage (generateImage provider index k)) = true) →
  ∃ fetched r,
    fetchRecipes prompt language provider = Return fetched
    ∧ fetched !! index = Some r
    ∧ RecipeText.ofRecipe r = recipe
    ∧ RecipeCard.imageSrc r = RecipeCard.PLACEHOLDER_IMAGE
    ∧ RecipeDetail.showRegenerateButton r (RecipeDetail.initialLocal r) = true
    ∧ RecipeDetail.imageSrc r (RecipeDetail.initialLocal r)
      = RecipeDetail.PLACEHOLDER_IMAGE.
Proof.
  intros Htext Hrecipes Hlookup Hfail.
  exists (imap (λ i recipe', RecipeText.withImage recipe'
                               (imagePromise provider i recipe')) items),
    (RecipeText.withImage recipe "").
  split; [by apply (fetchRecipes_joined _ _ _ fields)|].
  split; [|by destruct recipe].
  rewrite list_lookup_imap, Hlookup. cbn.
  by rewrite (proj1 (imagePromise_all_fail provider index recipe Hfail)).
Qed.

Lemma failed_image_shown_as_placeholder_witness :
  ∃ fetched r,
    fetchRecipes "Popular recipes" en Sample.provider = Return fetched
    ∧ fetched !! 0 = Some r
    ∧ RecipeCard.imageSrc r = RecipeCard.PLACEHOLDER_IMAGE.
Proof.
  destruct (failed_image_shown_as_placeholder "Popular recipes" en Sample.provider
              {[ "recipes" := JArray [Sample.recipeText "Tomato Soup" "A warming soup.";
                                      Sample.recipeText "Beef Stew" "A hearty stew."] ]}
              [Sample.recipeText "Tomato Soup" "A warming soup.";
               Sample.recipeText "Beef Stew" "A hearty stew."]
              0 (Sample.recipeText "Tomato Soup" "A warming soup.")
              eq_refl eq_refl eq_refl)
    as (fetched & r & Hreturn & Hlookup & _ & Hcard & _).
  - intros [|[|[|k]]] Hk; [reflexivity..|lia].
  - exists fetched, r. split; [exact Hreturn|]. split; [exact Hlookup|exact Hcard].
Defined.

(** X19. However the regeneration ends, the detail view is no longer
    regenerating. After a failure the load error is recorded, so the
    placeholder and the button are shown. After a success the new image
    reference is not empty; when it differs from the old one the effect on
    the image reference clears the load error and the new image is shown
    without the button; when it equals the old one the recorded load error
    is left as it was. *)
Theorem regenerate_settles_view (recipe : Recipe) replies
    (l : RecipeDetail.Local) (st : App.State) :
  let l' := (RecipeDetail.handleRegenerateImage recipe replies l st).1.1 in
  RecipeDetail.isRegenerating l' = false
  ∧ match (regenerateRecipeImage (RecipeText.ofRecipe recipe) replies).1 with
    | Throw _ =>
        RecipeDetail.imageError l' = true
        ∧ RecipeDetail.showRegenerateButton recipe l' = true
        ∧ RecipeDetail.imageSrc recipe l' = RecipeDetail.PLACEHOLDER_IMAGE
    | Return url =>
        let updated := setImageUrl recipe url in
        let l'' := RecipeDetail.imageUrlEffect recipe updated l' in
        url ≠ ""
        ∧ (if bool_decide (imageUrl recipe = url)
           then RecipeDetail.imageError l'' = RecipeDetail.imageError l
           else RecipeDetail.showRegenerateButton updated l'' = false
                ∧ RecipeDetail.imageSrc updated l'' = url)
    end.
Proof.
  unfold RecipeDetail.handleRegenerateImage.
  destruct (regenerateRecipeImage (RecipeText.ofRecipe recipe) replies)
    as [[url|e] sent] eqn:Hrun; cbn [fst snd].
  - split; [done|].
    assert (url ≠ "") as Hurl.
    { unfold regenerateRecipeImage, generateImageForRecipeWithRetry in Hrun.
      cbn in Hrun.
      destruct (attemptImage (replies 0)) as [url'|e] eqn:Hattempt.
      - injection Hrun as <- _. unfold attemptImage in Hattempt.
        destruct (replies 0) as [e|parts]; [done|].
        destruct (dataUrlOfParts_form parts url' Hattempt) as [d ->].
        apply dataUrl_not_empty.
      - rewrite bool_decide_eq_true_2 in Hrun by done. cbn in Hrun.
        by destruct (instanceofError e). }
    split; [done|]. unfold RecipeDetail.imageUrlEffect. cbn.
    case_bool_decide as Hsame; [done|].
    unfold RecipeDetail.imageSrc, RecipeDetail.showRegenerateButton,
      truthyString. cbn.
    by rewrite (bool_decide_eq_true_2 _ Hurl).
  - split; [done|]. split; [done|].
    unfold RecipeDetail.imageSrc, RecipeDetail.showRegenerateButton. cbn.
    by rewrite orb_true_r.
Qed.

End Images.

(** ** An empty result *)

Section EmptyResult.
Import Js Types GeminiService.

(** X20. When the call that settles was answered with a body that parses
    to an object whose [recipes] is the empty array, then whatever state
    the controller is in at that moment, the list becomes empty, the error
    stays as it was and the controller stops loading; the list renders a
    message and no card, the one for no recipes under the filter 'all',
    the one for no favourites under 'favorites'; and the controller shows
    that list when no recipe is selected and no error is set. *)
Theorem empty_result_message MESSAGES prompt language provider
    (st : App.State) fields :
  generateText provider
    {| contents := prompt; systemInstruction := systemInstructionFor language |}
  = TextJson (JObject fields) →
  fields !! "recipes" = Some (JArray []) →
  let st' := App.fetchRecipesSettle (fetchRecipes prompt language provider) st in
  App.error st' = App.error st
  ∧ App.recipes st' = []
  ∧ App.isLoading st' = false
  ∧ RecipeList.ofState MESSAGES st'
    = RecipeList.Message
        (match App.filter st with
         | App.Filter_all => RecipeList.noRecipes (MESSAGES (App.language st))
         | App.Filter_favorites =>
             RecipeList.noFavorites (MESSAGES (App.language st))
         end)
  ∧ (App.selectedRecipe st = None → App.error st = None →
     App.render st' = App.ListView []).
Proof.
  intros Htext Hrecipes.
  rewrite (fetchRecipes_joined _ _ _ _ _ Htext Hrecipes). cbn.
  destruct st as [lang rs sel loading err F flt]. cbn.
  unfold RecipeList.ofState, App.render, App.filteredRecipes. cbn.
  do 3 (split; [done|]). split; [by destruct flt|].
  intros -> ->. by destruct flt.
Qed.

End EmptyResult.

Lemma empty_result_message_witness :
  RecipeList.ofState Sample.messages
    (App.fetchRecipesSettle
       (GeminiService.fetchRecipes "Recipes for: soup" Types.en
          (Sample.providerAnswering (GeminiService.TextJson (Sample.body []))))
       (App.handleSearch Sample.translations "soup" Sample.loaded).1)
  = RecipeList.Message "No recipes found.".
Proof.
  exact (proj1 (proj2 (proj2 (proj2
           (empty_result_message Sample.messages "Recipes for: soup" Types.en
              (Sample.providerAnswering (GeminiService.TextJson (Sample.body [])))
              (App.handleSearch Sample.translations "soup" Sample.loaded).1
              {[ "recipes" := GeminiService.JArray [] ]} eq_refl eq_refl))))).
Defined.
